(** * Carver: text rendering over images

    A shallow embedding of [main.go] of anastasop/carver and the proofs of
    the properties its specification states about it.

    The program measures some lines of text, draws them with the freetype
    rasterizer on a transparent image, crops that image, places it on a
    canvas at one of nine anchors and writes a PNG.  What is embedded here is
    the arithmetic and the control flow of the program: Go's [int] and
    [fixed.Int26_6] with their wrap-around, [float64] as IEEE 754 binary64,
    the rectangle algebra of package [image], the scanning done by
    [fmt.Sscanf], and [main] as a function from the flags and the outcomes
    of its external operations to a trace of observable events and an exit
    status.  Pixel contents are not modelled: an image is its bounds. *)

From Stdlib Require Import ZArith List String Ascii Bool Lia Permutation.
From Stdlib Require Import PrimFloat FloatOps SpecFloat.
From Stdlib Require Import DecimalString.
Import ListNotations.

Local Open Scope string_scope.
Local Open Scope Z_scope.

(** ** Go integers *)

Module GoInt.

(** Two's complement wrap-around to [bits] bits, signed. *)
Definition wrap (bits : Z) (z : Z) : Z :=
  (z + 2 ^ (bits - 1)) mod 2 ^ bits - 2 ^ (bits - 1).

(** [int] is 64 bits wide on the platforms the program targets. *)
Definition int (z : Z) : Z := wrap 64 z.
Definition int32 (z : Z) : Z := wrap 32 z.

Definition add (a b : Z) : Z := int (a + b).
Definition sub (a b : Z) : Z := int (a - b).
Definition mul (a b : Z) : Z := int (a * b).
(** Go's [/] on integers truncates toward zero. *)
Definition div (a b : Z) : Z := int (Z.quot a b).

Definition in_int (z : Z) : Prop := - 2 ^ 63 <= z < 2 ^ 63.

End GoInt.

(** ** Package [runtime] *)

Module runtime.

(** The largest size [make] accepts on 64-bit Linux, where addresses have
    48 bits; above it [make] panics.  Below it an allocation can still find
    the machine out of memory, which ends the process and is not
    modelled. *)
Definition maxAlloc : Z := 2 ^ 48.

End runtime.

(** ** Package [color] *)

Module color.

(** Four 8-bit channels, not premultiplied by alpha. *)
Record NRGBA := mkNRGBA { R : Z; G : Z; B : Z; A : Z }.

End color.

(** ** Package [image]: points, rectangles and images *)

Module image.

(** [image.Uniform], an infinite image of one colour. *)
Record Uniform := NewUniform { C : color.NRGBA }.

Record Point := Pt { X : Z; Y : Z }.

Record Rectangle := mkRectangle { Min : Point; Max : Point }.

(** [image.ZR], the zero rectangle. *)
Definition ZR : Rectangle := mkRectangle (Pt 0 0) (Pt 0 0).

(** [image.Rect]: the corners are swapped where needed so that the
    result is well-formed. *)
Definition Rect (x0 y0 x1 y1 : Z) : Rectangle :=
  let '(x0, x1) := if x0 >? x1 then (x1, x0) else (x0, x1) in
  let '(y0, y1) := if y0 >? y1 then (y1, y0) else (y0, y1) in
  mkRectangle (Pt x0 y0) (Pt x1 y1).

Definition Add (p q : Point) : Point :=
  Pt (GoInt.add (X p) (X q)) (GoInt.add (Y p) (Y q)).

Definition Dx (r : Rectangle) : Z := GoInt.sub (X (Max r)) (X (Min r)).
Definition Dy (r : Rectangle) : Z := GoInt.sub (Y (Max r)) (Y (Min r)).

Definition Empty (r : Rectangle) : bool :=
  (X (Min r) >=? X (Max r)) || (Y (Min r) >=? Y (Max r)).

(** [Rectangle.Intersect]: the largest rectangle contained in both, the
    zero rectangle when they do not overlap. *)
Definition Intersect (r s : Rectangle) : Rectangle :=
  let minx := if X (Min r) <? X (Min s) then X (Min s) else X (Min r) in
  let miny := if Y (Min r) <? Y (Min s) then Y (Min s) else Y (Min r) in
  let maxx := if X (Max r) >? X (Max s) then X (Max s) else X (Max r) in
  let maxy := if Y (Max r) >? Y (Max s) then Y (Max s) else Y (Max r) in
  let r' := mkRectangle (Pt minx miny) (Pt maxx maxy) in
  if Empty r' then ZR else r'.

(** An image is known by its bounds only.  [image.Image] is the read-only
    interface, [draw.Image] the mutable one; [RGBA] implements both. *)
Record Image := mkImage { Bounds : Rectangle }.

(** [mul3NonNeg] returns [x * y * z], unless an argument is negative or
    the product done in that order overflows, in which case it returns
    -1. *)
Definition mul3NonNeg (x y z : Z) : Z :=
  if (x <? 0) || (y <? 0) || (z <? 0) then -1
  else if 2 ^ 64 <=? x * y then -1
  else if 2 ^ 64 <=? x * y * z then -1
  else if 2 ^ 63 <=? x * y * z then -1
  else x * y * z.

(** [image.NewRGBA] panics ([None]) when [pixelBufferLength] finds the
    buffer length [4 * Dx * Dy] negative or too large for an [int], and
    when [make] finds it above [runtime.maxAlloc]. *)
Definition NewRGBA (r : Rectangle) : option Image :=
  let totalLength := mul3NonNeg 4 (Dx r) (Dy r) in
  if totalLength <? 0 then None
  else if totalLength >? runtime.maxAlloc then None
  else Some (mkImage r).

(** [RGBA.SubImage]: the part of the image visible through [r]; an
    empty intersection gives the empty image [&RGBA{}]. *)
Definition SubImage (p : Image) (r : Rectangle) : Image :=
  let r' := Intersect r (Bounds p) in
  if Empty r' then mkImage ZR else mkImage r'.

(** Coordinates that are far from the limits of [int], so that the sums
    and differences of a few of them do not wrap. *)
Definition coord_ok (z : Z) : Prop := - 2 ^ 60 <= z < 2 ^ 60.

(** A rectangle whose corners are [int]s, in order. *)
Definition int_rect (r : Rectangle) : Prop :=
  GoInt.in_int (X (Min r)) /\ GoInt.in_int (X (Max r)) /\
  GoInt.in_int (Y (Min r)) /\ GoInt.in_int (Y (Max r)) /\
  X (Min r) <= X (Max r) /\ Y (Min r) <= Y (Max r).

Definition rect_ok (r : Rectangle) : Prop :=
  coord_ok (X (Min r)) /\ coord_ok (Y (Min r)) /\
  coord_ok (X (Max r)) /\ coord_ok (Y (Max r)) /\
  X (Min r) <= X (Max r) /\ Y (Min r) <= Y (Max r).

End image.

Import image.

(** ** The Placement Calculator *)

(** [textRect] returns the rectangle of [dst] where [src] should be placed
    according to [pos].  [None] stands for the [default] branch, where
    [usage()] ends the process. *)
Definition textRect (dst src : Image) (pos : string) : option Rectangle :=
  let ox := GoInt.sub (X (Max (Bounds dst))) (Dx (Bounds src)) in
  let oy := GoInt.sub (Y (Max (Bounds dst))) (Dy (Bounds src)) in
  let placed (pt : Point) : option Rectangle :=
    let ap := Add (Min (Bounds dst)) pt in
    Some (Rect (X ap) (Y ap)
               (GoInt.add (X ap) (Dx (Bounds src)))
               (GoInt.add (Y ap) (Dy (Bounds src)))) in
  if (pos =? "tl")%string then placed (Pt 0 0)
  else if (pos =? "tc")%string then placed (Pt (GoInt.div ox 2) 0)
  else if (pos =? "tr")%string then placed (Pt ox 0)
  else if (pos =? "cl")%string then placed (Pt 0 (GoInt.div oy 2))
  else if (pos =? "c")%string then placed (Pt (GoInt.div ox 2) (GoInt.div oy 2))
  else if (pos =? "cr")%string then placed (Pt ox (GoInt.div oy 2))
  else if (pos =? "bl")%string then placed (Pt 0 oy)
  else if (pos =? "bc")%string then placed (Pt (GoInt.div ox 2) oy)
  else if (pos =? "br")%string then placed (Pt ox oy)
  else None.

(** ** Package [fixed]: 26.6 fixed-point numbers *)

Module fixed.

(** [Int26_6] is an [int32] counting 64ths of a pixel. *)
Record Point26_6 := P26_6 { X : Z; Y : Z }.

(** [Int26_6.Ceil]: [int((x + 0x3f) >> 6)], the addition wrapping in 32
    bits and the shift being arithmetic. *)
Definition Ceil (x : Z) : Z := Z.shiftr (GoInt.int32 (x + 63)) 6.

End fixed.

(** ** [float64] and its conversion to an integer *)

Module float64.

(** The integer part of a finite float, rounded toward zero; [None] for
    NaN and the infinities. *)
Definition trunc (f : float) : option Z :=
  match Prim2SF f with
  | S754_zero _ => Some 0
  | S754_finite s m e =>
      let v := if 0 <=? e then Z.pos m * 2 ^ e else Z.pos m / 2 ^ (- e) in
      Some (if s then - v else v)
  | S754_infinity _ => None
  | S754_nan => None
  end.

(** The conversion [int32(f)] truncates toward zero.  Go leaves the result
    implementation-dependent when the value does not fit; [other] is what
    the platform gives then. *)
Definition to_int32 (other : float -> Z) (f : float) : Z :=
  match trunc f with
  | Some z => if (- 2 ^ 31 <=? z) && (z <? 2 ^ 31) then z
              else GoInt.int32 (other f)
  | None => GoInt.int32 (other f)
  end.

End float64.

(** ** Package [fmt]: scanning a hexadecimal number *)

Module fmt.

Definition byte (c : ascii) : Z := Z.of_N (N_of_ascii c).

(** The value of a hexadecimal digit, as [strconv.ParseUint] reads it. *)
Definition hexval (c : ascii) : option Z :=
  let n := byte c in
  if (48 <=? n) && (n <=? 57) then Some (n - 48)
  else if (97 <=? n) && (n <=? 102) then Some (n - 87)
  else if (65 <=? n) && (n <=? 70) then Some (n - 55)
  else None.

(** The runes the scanner takes for a number under the verb [%x]:
    the hexadecimal digits. *)
Definition accept (c : ascii) : bool :=
  match hexval c with
  | Some _ => true
  | None => false
  end.

(** The space runes of one byte, the newline apart. *)
Definition space1 (c : ascii) : bool :=
  let n := byte c in
  (n =? 9) || (n =? 11) || (n =? 12) || (n =? 13) || (n =? 32).

(** U+0085 and U+00A0 in UTF-8. *)
Definition space2 (c1 c2 : ascii) : bool :=
  (byte c1 =? 194) && ((byte c2 =? 133) || (byte c2 =? 160)).

(** U+1680, U+2000 to U+200A, U+2028, U+2029, U+202F, U+205F and U+3000
    in UTF-8. *)
Definition space3 (c1 c2 c3 : ascii) : bool :=
  let '(a, b, c) := (byte c1, byte c2, byte c3) in
  ((a =? 225) && (b =? 154) && (c =? 128))
  || ((a =? 226) && (b =? 128) &&
      (((128 <=? c) && (c <=? 138)) || (c =? 168) || (c =? 169) || (c =? 175)))
  || ((a =? 226) && (b =? 129) && (c =? 159))
  || ((a =? 227) && (b =? 128) && (c =? 128)).

(** [SkipSpace] for [Sscanf]: spaces are skipped, a newline is an error
    ([None]).  A carriage return is a space; when a newline follows it,
    that newline is read next and is the error. *)
Fixpoint SkipSpace (s : string) : option string :=
  match s with
  | EmptyString => Some EmptyString
  | String c1 r1 =>
      if byte c1 =? 10 then None
      else if space1 c1 then SkipSpace r1
      else
        match r1 with
        | EmptyString => Some s
        | String c2 r2 =>
            if space2 c1 c2 then SkipSpace r2
            else
              match r2 with
              | EmptyString => Some s
              | String c3 r3 =>
                  if space3 c1 c2 c3 then SkipSpace r3 else Some s
              end
        end
  end.

(** [scanNumber]: the longest prefix of accepted runes. *)
Fixpoint scanNumber (s : string) : string :=
  match s with
  | EmptyString => EmptyString
  | String c r => if accept c then String c (scanNumber r) else EmptyString
  end.

(** [strconv.ParseUint(tok, 16, 64)], started from the value [n]; a byte
    that is no digit is a syntax error. *)
Fixpoint ParseUint (tok : string) (n : Z) : option Z :=
  match tok with
  | EmptyString => Some n
  | String c r =>
      match hexval c with
      | Some d => ParseUint r (n * 16 + d)
      | None => None
      end
  end.

(** [scanUint] for the verb [%x] and 32 bits: [None] when there is no
    digit or when the number does not fit 32 bits.  The scanner gives up
    after 2^30 runes; strings that long are not modelled. *)
Definition scanUint (s : string) : option Z :=
  match SkipSpace s with
  | None => None
  | Some s' =>
      match scanNumber s' with
      | EmptyString => None
      | tok =>
          match ParseUint tok 0 with
          | Some i => if i <? 2 ^ 32 then Some i else None
          | None => None
          end
      end
  end.

(** [fmt.Sscanf(str, "%x", &c)] for [c] a [uint32] that holds [c0]: the new
    value of [c].  The variable is assigned only when the scan succeeds;
    the error that [Sscanf] returns otherwise is not part of the result
    because the program drops it. *)
Definition Sscanf_x (str : string) (c0 : Z) : Z :=
  match scanUint str with
  | Some i => i
  | None => c0
  end.

(** [%d] of an [int]. *)
Definition itoa (z : Z) : string := NilZero.string_of_int (Z.to_int z).

End fmt.

(** ** The Color Parser *)

(** [allocColorImage] parses [col], an NRGBA colour such as [0a0b0cff], and
    returns a uniform image of that colour. *)
Definition allocColorImage (col : string) : Uniform :=
  let c := fmt.Sscanf_x col 0 in
  NewUniform (color.mkNRGBA
    (Z.land (Z.shiftr c 24) 255 mod 2 ^ 8)
    (Z.land (Z.shiftr c 16) 255 mod 2 ^ 8)
    (Z.land (Z.shiftr c 8) 255 mod 2 ^ 8)
    (Z.land c 255 mod 2 ^ 8)).

(** ** Results of fallible operations *)

Definition error := string.

(** What a call gives: a value, an [error], or a panic. *)
Inductive result (T : Type) : Type :=
| Ok (v : T)
| Err (e : error)
| Panic.

Arguments Ok {T} v.
Arguments Err {T} e.
Arguments Panic {T}.

(** ** Package [freetype] *)

Module freetype.

(** The bytes of a font program: the bundled Go Mono, or a file's. *)
Inductive FontData :=
| gomono_TTF
| FileData (data : string).

(** A parsed font, known by the data it was parsed from. *)
Record Font := mkFont { data : FontData }.

(** The fields of [freetype.Context] that the program sets. *)
Record Context := mkContext {
  f : option Font;
  fontSize : float;
  dpi : float;
  src : option Uniform;
  clip : Rectangle;
  dst : option Image
}.

Definition NewContext : Context :=
  mkContext None 12 72 None ZR None.

Definition SetFont (c : Context) (v : Font) : Context :=
  mkContext (Some v) (fontSize c) (dpi c) (src c) (clip c) (dst c).
Definition SetFontSize (c : Context) (v : float) : Context :=
  mkContext (f c) v (dpi c) (src c) (clip c) (dst c).
Definition SetSrc (c : Context) (v : Uniform) : Context :=
  mkContext (f c) (fontSize c) (dpi c) (Some v) (clip c) (dst c).
Definition SetDPI (c : Context) (v : float) : Context :=
  mkContext (f c) (fontSize c) v (src c) (clip c) (dst c).
Definition SetClip (c : Context) (v : Rectangle) : Context :=
  mkContext (f c) (fontSize c) (dpi c) (src c) v (dst c).
Definition SetDst (c : Context) (v : Image) : Context :=
  mkContext (f c) (fontSize c) (dpi c) (src c) (clip c) (Some v).

(** [PointToFixed] converts a number of points into a 26.6 fixed-point
    number of pixels: [fixed.Int26_6(x * c.dpi * (64.0 / 72.0))]. *)
Definition PointToFixed (other : float -> Z) (c : Context) (x : float) : Z :=
  float64.to_int32 other (x * dpi c * (64 / 72))%float.

(** [freetype.Pt] converts pixels to 26.6 fixed point. *)
Definition Pt (x y : Z) : fixed.Point26_6 :=
  fixed.P26_6 (GoInt.int32 (Z.shiftl x 6)) (GoInt.int32 (Z.shiftl y 6)).

End freetype.

(** ** The command line and the world around the program *)

(** The flags, with the names of the variables that hold them. *)
Record Flags := mkFlags {
  fgColor : string;
  bgColor : string;
  outFile : string;
  inFile : string;
  text : string;
  dpi : float;
  fontSize : float;
  fontFile : string;
  report : bool;
  anchor : string
}.

(** What a [bufio.Scanner] reads from. *)
Inductive Source :=
| Stdin
| Buffer (s : string).

(** What [image.Decode] gives for a file. *)
Inductive Decoded :=
| DecodeError (e : error)
| ReadOnly (img : Image)
| Mutable (img : Image).

(** The outcomes of the operations the program leaves to its libraries and
    to the operating system. *)
Record World := mkWorld {
  (** the platform's [int32(f)] for an [f] that does not fit *)
  int32_of_unrepresentable : float -> Z;
  os_ReadFile : string -> result string;
  ParseFont : freetype.FontData -> result freetype.Font;
  (** the tokens a line scanner yields, and its final [Err()] *)
  Scan : Source -> list string * option error;
  (** the pen position after [Context.DrawString] *)
  DrawString : freetype.Context -> string -> fixed.Point26_6 ->
               result fixed.Point26_6;
  os_Open : string -> option error;
  image_Decode : string -> Decoded;
  png_Encode : Image -> option error;
  ioutil_WriteFile : string -> option error
}.

(** What the process does that can be seen from outside. *)
Inductive event :=
| Stdout (s : string)
| Stderr (s : string)
| PrintUsage
| Fill (canvas : Rectangle) (c : Uniform)
| Decode (fname : string)
| DrawOver (canvas : Rectangle) (r : Rectangle) (src : Rectangle)
| WriteFile (fname : string) (img : Rectangle).

Inductive status :=
| Exit (code : Z)
| Crash.

(** A computation that appends to the trace of events and either returns or
    ends the process. *)
Definition M (T : Type) : Type := list event -> list event * (T + status).

Definition ret {T} (v : T) : M T := fun tr => (tr, inl v).

Definition bind {T U} (m : M T) (k : T -> M U) : M U :=
  fun tr =>
    match m tr with
    | (tr', inl v) => k v tr'
    | (tr', inr st) => (tr', inr st)
    end.

Definition emit (e : event) : M unit := fun tr => ((tr ++ [e])%list, inl tt).

Definition os_Exit {T} (code : Z) : M T := fun tr => (tr, inr (Exit code)).

Definition panic {T} : M T := fun tr => (tr, inr Crash).

Notation "x <- m ;; k" := (bind m (fun x => k))
  (at level 61, m at next level, right associativity).
Notation "m ;;; k" := (bind m (fun _ => k))
  (at level 61, right associativity).

(** [log.Fatal] prints the error and exits with status 1. *)
Definition log_Fatal {T} (e : error) : M T :=
  emit (Stderr e) ;;; os_Exit 1.

(** [usage] prints the usage text and the flag defaults on standard error
    and exits with status 2. *)
Definition usage {T} : M T :=
  emit PrintUsage ;;; os_Exit 2.

(** The record of a run. *)
Record run := mkRun { trace : list event; exit : status }.

Definition exec (m : M unit) : run :=
  match m [] with
  | (tr, inl _) => mkRun tr (Exit 0)
  | (tr, inr st) => mkRun tr st
  end.

(** ** Package [strings] *)

Module strings.

(** [strings.ReplaceAll(s, old, new)] for an [old] of one byte. *)
Fixpoint ReplaceAll (s : string) (old : ascii) (new : string) : string :=
  match s with
  | EmptyString => EmptyString
  | String c r =>
      if Ascii.eqb c old then (new ++ ReplaceAll r old new)%string
      else String c (ReplaceAll r old new)
  end.

End strings.

(** [len] of a string is its number of bytes. *)
Definition len (s : string) : Z := Z.of_nat (String.length s).

(** The variables [fg], [bg] and [font] that [main] sets and the stages
    read. *)
Record Globals := mkGlobals {
  fg : Uniform;
  bg : Uniform;
  font : freetype.Font
}.

(** ** The program *)

Section Program.

Variable W : World.
Variable fl : Flags.

(** [ctx.PointToFixed] on this platform. *)
Definition PointToFixed (ctx : freetype.Context) (x : float) : Z :=
  freetype.PointToFixed (int32_of_unrepresentable W) ctx x.

(** [bounds] estimates an upper bound for the area needed to render
    [lines].  The [ctx] must be configured with font size and DPI. *)
Definition bounds (ctx : freetype.Context) (lines : list string)
  : Rectangle :=
  let maxLen :=
    fold_left (fun maxLen line =>
                 let l := len line in if l >? maxLen then l else maxLen)
              lines 0 in
  let po := PointToFixed ctx (fontSize fl) in
  let vs := PointToFixed ctx (fontSize fl + 2)%float in
  let dx := GoInt.add (GoInt.mul maxLen (fixed.Ceil po))
                      (GoInt.mul 4 (fixed.Ceil po)) in
  let dy := GoInt.add (GoInt.mul (Z.of_nat (List.length lines)) (fixed.Ceil vs))
                      (GoInt.mul 4 (fixed.Ceil po)) in
  Rect 0 0 dx dy.

(** The loop of [render]: the pen [p] moves down by [vs] before each line;
    [bnds] keeps the largest pen abscissa reached and the last ordinate. *)
Fixpoint draw_lines (ctx : freetype.Context) (vs : Z) (lines : list string)
  (p bnds : fixed.Point26_6) : result (fixed.Point26_6 * fixed.Point26_6) :=
  match lines with
  | [] => Ok (p, bnds)
  | line :: rest =>
      let p := fixed.P26_6 (fixed.X p) (GoInt.int32 (fixed.Y p + vs)) in
      match DrawString W ctx line p with
      | Err e => Err e
      | Panic => Panic
      | Ok p1 =>
          let bnds := if fixed.X p1 >? fixed.X bnds
                      then fixed.P26_6 (fixed.X p1) (fixed.Y bnds)
                      else bnds in
          let bnds := fixed.P26_6 (fixed.X bnds) (fixed.Y p) in
          draw_lines ctx vs rest p bnds
      end
  end.

(** [render] creates a new image with a transparent background, renders
    the lines and returns it, cropped. *)
Definition render (g : Globals) (lines : list string) : result Image :=
  let ctx := freetype.NewContext in
  let ctx := freetype.SetFont ctx (font g) in
  let ctx := freetype.SetFontSize ctx (fontSize fl) in
  let ctx := freetype.SetSrc ctx (fg g) in
  let ctx := freetype.SetDPI ctx (dpi fl) in
  match NewRGBA (bounds ctx lines) with
  | None => Panic
  | Some img =>
      let ctx := freetype.SetClip ctx (Bounds img) in
      let ctx := freetype.SetDst ctx img in
      let vs := PointToFixed ctx (fontSize fl + 2)%float in
      let offset := freetype.Pt 16 16 in
      let bnds := freetype.Pt 0 0 in
      let p := offset in
      match draw_lines ctx vs lines p bnds with
      | Err e => Err e
      | Panic => Panic
      | Ok (_, bnds) =>
          let bx := GoInt.int32 (fixed.X bnds + fixed.X offset) in
          let by_ := GoInt.int32 (fixed.Y bnds + fixed.Y offset) in
          Ok (SubImage img (Rect 0 0 (fixed.Ceil bx) (fixed.Ceil by_)))
      end
  end.

(** [writeImage] writes the PNG encoding of [img] to the new file
    [fname]. *)
Definition writeImage (img : Image) (fname : string) : M (option error) :=
  match png_Encode W img with
  | Some e => ret (Some e)
  | None =>
      emit (WriteFile fname (Bounds img)) ;;;
      ret (ioutil_WriteFile W fname)
  end.

(** [textToRender] reads standard input or the [-t] flag, replaces tabs
    with spaces and returns the lines. *)
Definition textToRender : list string * option error :=
  let scanner := if (text fl =? "")%string then Stdin
                 else Buffer (text fl) in
  let '(tokens, err) := Scan W scanner in
  (map (fun t => strings.ReplaceAll t "009"%char "    ") tokens, err).

(** [canvas] returns the image to write on: the image read from the file
    [fname], or when [fname] is empty an image of size [bnds] filled with
    the background colour. *)
Definition canvas (g : Globals) (fname : string) (bnds : Rectangle)
  : M (result Image) :=
  if (fname =? "")%string then
    match NewRGBA bnds with
    | None => panic
    | Some dst =>
        emit (Fill (Bounds dst) (bg g)) ;;;
        ret (Ok dst)
    end
  else
    match os_Open W fname with
    | Some e => ret (Err e)
    | None =>
        emit (Decode fname) ;;;
        match image_Decode W fname with
        | DecodeError e => log_Fatal e
        | ReadOnly _ => panic
        | Mutable img => ret (Ok img)
        end
    end.

(** [main] from the line after [flag.Parse()]: [fl] holds the values of the
    flags of a command line that has parsed.  The lines before it are in
    [carver] below. *)
Definition main : run :=
  exec (
    (if (outFile fl =? "")%string && negb (report fl)
     then usage else ret tt) ;;;
    fontData <-
      (if (fontFile fl =? "")%string then ret freetype.gomono_TTF
       else match os_ReadFile W (fontFile fl) with
            | Ok data => ret (freetype.FileData data)
            | Err e => log_Fatal e
            | Panic => panic
            end) ;;
    f <- match ParseFont W fontData with
         | Ok f => ret f
         | Err e => log_Fatal e
         | Panic => panic
         end ;;
    let g := mkGlobals (allocColorImage (fgColor fl))
                       (allocColorImage (bgColor fl)) f in
    lines <- (let '(lines, err) := textToRender in
              match err with
              | Some e => log_Fatal e
              | None => ret lines
              end) ;;
    img <- match render g lines with
           | Ok img => ret img
           | Err e => log_Fatal e
           | Panic => panic
           end ;;
    if report fl then
      emit (Stdout (fmt.itoa (Dx (Bounds img)) ++ "x"
                    ++ fmt.itoa (Dy (Bounds img)))%string)
    else
      c <- canvas g (inFile fl) (Bounds img) ;;
      cimg <- match c with
              | Ok cimg => ret cimg
              | Err e => log_Fatal e
              | Panic => panic
              end ;;
      r <- match textRect cimg img (anchor fl) with
           | Some r => ret r
           | None => usage
           end ;;
      emit (DrawOver (Bounds cimg) r (Bounds img)) ;;;
      err <- writeImage cimg (outFile fl) ;;
      match err with
      | Some e => log_Fatal e
      | None => ret tt
      end).

End Program.

(** What [flag.Parse()] makes of the command line: a flag that is not
    defined or a value that does not parse, for which it prints a message
    and calls [flag.Usage]; a request for help, for which it calls
    [flag.Usage]; or the values of the flags. *)
Inductive CommandLine :=
| BadFlag (msg : string)
| Help
| Parsed (fl : Flags).

(** The whole of [main]: [flag.Usage = usage], then [flag.Parse()], in
    which [usage] ends the process when the command line is not accepted,
    then the rest. *)
Definition carver (W : World) (cl : CommandLine) : run :=
  match cl with
  | BadFlag msg => exec (emit (Stderr msg) ;;; usage)
  | Help => exec usage
  | Parsed fl => main W fl
  end.

(** ** Notions the specification uses *)

(** The nine anchors of the 3x3 grid. *)
Definition valid_anchor (pos : string) : bool :=
  existsb (String.eqb pos) ["tl"; "tc"; "tr"; "cl"; "c"; "cr"; "bl"; "bc"; "br"].

(** The offset table of the Placement Calculator, for the horizontal slack
    [ox] and the vertical slack [oy]. *)
Definition anchor_offset (ox oy : Z) (pos : string) : option (Z * Z) :=
  if (pos =? "tl")%string then Some (0, 0)
  else if (pos =? "tc")%string then Some (Z.quot ox 2, 0)
  else if (pos =? "tr")%string then Some (ox, 0)
  else if (pos =? "cl")%string then Some (0, Z.quot oy 2)
  else if (pos =? "c")%string then Some (Z.quot ox 2, Z.quot oy 2)
  else if (pos =? "cr")%string then Some (ox, Z.quot oy 2)
  else if (pos =? "bl")%string then Some (0, oy)
  else if (pos =? "bc")%string then Some (Z.quot ox 2, oy)
  else if (pos =? "br")%string then Some (ox, oy)
  else None.

Definition width (r : Rectangle) : Z := X (Max r) - X (Min r).
Definition height (r : Rectangle) : Z := Y (Max r) - Y (Min r).

(** The placement as the specification words it: the slack is the canvas
    size less the text size, and the text keeps its size at the offset from
    the canvas origin. *)
Definition textRect_spec (canvas txt : Rectangle) (pos : string)
  : option Rectangle :=
  let ox := width canvas - width txt in
  let oy := height canvas - height txt in
  match anchor_offset ox oy pos with
  | None => None
  | Some (px, py) =>
      let x := X (Min canvas) + px in
      let y := Y (Min canvas) + py in
      Some (mkRectangle (Pt x y) (Pt (x + width txt) (y + height txt)))
  end.

(** The number of characters of a line of UTF-8 text: its bytes less the
    continuation bytes, those from 0x80 to 0xBF. *)
Fixpoint charCount (s : string) : Z :=
  match s with
  | EmptyString => 0
  | String c r =>
      (if (128 <=? fmt.byte c) && (fmt.byte c <? 192) then 0 else 1)
      + charCount r
  end.

(** A line of ASCII text. *)
Definition ascii_line (s : string) : Prop :=
  Forall (fun c => fmt.byte c < 128) (list_ascii_of_string s).

(** The largest character count, and the largest byte count, of some lines;
    0 when there is none. *)
Definition maxChars (lines : list string) : Z :=
  fold_right Z.max 0 (map charCount lines).

Definition maxBytes (lines : list string) : Z :=
  fold_right Z.max 0 (map len lines).

(** The context [render] has configured when it calls [bounds]. *)
Definition configured (fl : Flags) (g : Globals) : freetype.Context :=
  freetype.SetDPI
    (freetype.SetSrc
       (freetype.SetFontSize
          (freetype.SetFont freetype.NewContext (font g))
          (fontSize fl))
       (fg g))
    (dpi fl).

(** [po], the rounded-up pixel size of the font size, and [vs], that of the
    font size plus two points. *)
Definition po (W : World) (fl : Flags) (ctx : freetype.Context) : Z :=
  fixed.Ceil (PointToFixed W ctx (fontSize fl)).

Definition vs (W : World) (fl : Flags) (ctx : freetype.Context) : Z :=
  fixed.Ceil (PointToFixed W ctx (fontSize fl + 2)%float).

(** The estimate as the specification words it, on the character count. *)
Definition bounds_spec (W : World) (fl : Flags) (ctx : freetype.Context)
  (lines : list string) : Rectangle :=
  mkRectangle (Pt 0 0)
    (Pt (maxChars lines * po W fl ctx + 4 * po W fl ctx)
        (Z.of_nat (List.length lines) * vs W fl ctx + 4 * po W fl ctx)).

(** The lowercase hexadecimal digit of value [d]. *)
Definition hexdigit (d : Z) : ascii :=
  ascii_of_N (Z.to_N (if d <? 10 then d + 48 else d + 87)).

(** The two digits of a channel, as [%02x] prints it. *)
Definition format_channel (v : Z) : string :=
  String (hexdigit (v / 16)) (String (hexdigit (v mod 16)) EmptyString).

(** A colour formatted back to 8 hexadecimal digits, RRGGBBAA. *)
Definition format_hex8 (c : color.NRGBA) : string :=
  (format_channel (color.R c) ++ format_channel (color.G c)
   ++ format_channel (color.B c) ++ format_channel (color.A c))%string.

(** A string of hexadecimal digits only. *)
Fixpoint is_hex (s : string) : bool :=
  match s with
  | EmptyString => true
  | String c r =>
      match fmt.hexval c with
      | Some _ => is_hex r
      | None => false
      end
  end.

(** The number a string of hexadecimal digits denotes, most significant
    digit first. *)
Fixpoint hex_value (s : string) : Z :=
  match s with
  | EmptyString => 0
  | String c r =>
      match fmt.hexval c with
      | Some d => d * 16 ^ Z.of_nat (String.length r) + hex_value r
      | None => 0
      end
  end.

(** The font [main] goes on with, once it has read and parsed it. *)
Definition loaded_font (W : World) (fl : Flags) : result freetype.Font :=
  if (fontFile fl =? "")%string then ParseFont W freetype.gomono_TTF
  else match os_ReadFile W (fontFile fl) with
       | Ok data => ParseFont W (freetype.FileData data)
       | Err e => Err e
       | Panic => Panic
       end.

(** The variables [main] has set when it calls [render]. *)
Definition globals (fl : Flags) (f : freetype.Font) : Globals :=
  mkGlobals (allocColorImage (fgColor fl)) (allocColorImage (bgColor fl)) f.

(** An event that touches no file and no canvas. *)
Definition console (e : event) : bool :=
  match e with
  | Stdout _ | Stderr _ | PrintUsage => true
  | Fill _ _ | Decode _ | DrawOver _ _ _ | WriteFile _ _ => false
  end.

Definition writes_file (e : event) : bool :=
  match e with
  | WriteFile _ _ => true
  | _ => false
  end.

Definition no_write (e : event) : bool := negb (writes_file e).

(** A computation all of whose events satisfy [P]. *)
Definition emits_only {T : Type} (P : event -> bool) (m : M T) : Prop :=
  forall tr, forallb P tr = true -> forallb P (fst (m tr)) = true.

(** Sizes for which neither the estimate nor the pen wraps around: the
    pixel sizes are positive, the estimate fits an [int], and the pen, which
    [render] starts 16 pixels from the left on every line, stays within
    26.6 fixed point with the margin added. *)
Definition moderate (W : World) (fl : Flags) (g : Globals)
  (lines : list string) : Prop :=
  let ctx := configured fl g in
  let n := Z.of_nat (List.length lines) in
  0 < po W fl ctx /\
  0 <= PointToFixed W ctx (fontSize fl + 2)%float /\
  maxBytes lines * po W fl ctx + 4 * po W fl ctx < 2 ^ 63 /\
  n * vs W fl ctx + 4 * po W fl ctx < 2 ^ 63 /\
  n * PointToFixed W ctx (fontSize fl + 2)%float + 2111 < 2 ^ 31 /\
  (forall c line p p1,
      In line lines -> fixed.X p = 1024 ->
      DrawString W c line p = Ok p1 -> fixed.X p1 + 1087 < 2 ^ 31).

(** ** Sample inputs *)

(** A world where nothing fails, the rasterizer advances the pen by 9
    pixels a byte, standard input holds three lines and any image file
    decodes to a 200x100 picture. *)
Definition sample_world : World :=
  mkWorld
    (fun _ => 0)
    (fun _ => Ok "ttf")
    (fun d => Ok (freetype.mkFont d))
    (fun s => match s with
              | Stdin => (["one"; "two"; "three"], None)
              | Buffer s => ([s], None)
              end)
    (fun _ line p =>
       Ok (fixed.P26_6 (GoInt.int32 (fixed.X p + 576 * len line)) (fixed.Y p)))
    (fun _ => None)
    (fun _ => Mutable (mkImage (Rect 0 0 200 100)))
    (fun _ => None)
    (fun _ => None).

(** The flags at their defaults, for an output file [out]. *)
Definition default_flags (out : string) : Flags :=
  mkFlags "000000ff" "ffffe0ff" out "" "" 96 11 "" false "tl".

Definition with_report (fl : Flags) : Flags :=
  mkFlags (fgColor fl) (bgColor fl) (outFile fl) (inFile fl) (text fl)
          (dpi fl) (fontSize fl) (fontFile fl) true (anchor fl).

Definition with_anchor (fl : Flags) (pos : string) : Flags :=
  mkFlags (fgColor fl) (bgColor fl) (outFile fl) (inFile fl) (text fl)
          (dpi fl) (fontSize fl) (fontFile fl) (report fl) pos.

Definition sample_font : freetype.Font := freetype.mkFont freetype.gomono_TTF.

(** The two bytes of U+00E9, e with an acute accent. *)
Definition e_acute : string :=
  String (ascii_of_nat 195) (String (ascii_of_nat 169) EmptyString).

(** A canvas that does not start at the origin, and a text image. *)
Definition offset_canvas : Image := mkImage (Rect 10 10 110 110).
Definition small_text : Image := mkImage (Rect 0 0 20 20).


(** The sample world with nothing on standard input. *)
Definition silent_world : World :=
  mkWorld
    (int32_of_unrepresentable sample_world)
    (os_ReadFile sample_world)
    (ParseFont sample_world)
    (fun s => match s with
              | Stdin => ([], None)
              | Buffer s => ([s], None)
              end)
    (DrawString sample_world)
    (os_Open sample_world)
    (image_Decode sample_world)
    (png_Encode sample_world)
    (ioutil_WriteFile sample_world).

(** The default flags with another font size and DPI. *)
Definition with_size (fl : Flags) (points dots : float) : Flags :=
  mkFlags (fgColor fl) (bgColor fl) (outFile fl) (inFile fl) (text fl)
          dots points (fontFile fl) (report fl) (anchor fl).

(** ** Further notions *)

(** A rectangle that lies within another. *)
Definition inside (r s : Rectangle) : Prop :=
  X (Min s) <= X (Min r) /\ Y (Min s) <= Y (Min r) /\
  X (Max r) <= X (Max s) /\ Y (Max r) <= Y (Max s).

(** The number of tab bytes of a string. *)
Fixpoint tabs (s : string) : nat :=
  match s with
  | EmptyString => 0%nat
  | String c r => ((if Ascii.eqb c "009"%char then 1 else 0) + tabs r)%nat
  end.

(** The colour with every channel at zero. *)
Definition transparent_black : Uniform :=
  NewUniform (color.mkNRGBA 0 0 0 0).

(** An event that writes the file [fname]. *)
Definition writes_to (fname : string) (e : event) : bool :=
  match e with
  | WriteFile f _ => String.eqb f fname
  | _ => false
  end.

(** An event that prints on standard output. *)
Definition prints (e : event) : bool :=
  match e with
  | Stdout _ => true
  | _ => false
  end.

(** An estimate that is not negative and fits an [int]. *)
Definition plain_estimate (W : World) (fl : Flags) (ctx : freetype.Context)
  (lines : list string) : Prop :=
  0 <= maxBytes lines * po W fl ctx + 4 * po W fl ctx < 2 ^ 63 /\
  0 <= Z.of_nat (List.length lines) * vs W fl ctx + 4 * po W fl ctx < 2 ^ 63.

(** The sample world with a rasterizer that has no glyph for the line
    [bad]. *)
Definition glyphless_world : World :=
  mkWorld
    (int32_of_unrepresentable sample_world)
    (os_ReadFile sample_world)
    (ParseFont sample_world)
    (Scan sample_world)
    (fun c line p =>
       if (line =? "bad")%string then Err "no glyph"
       else DrawString sample_world c line p)
    (os_Open sample_world)
    (image_Decode sample_world)
    (png_Encode sample_world)
    (ioutil_WriteFile sample_world).

(** The sample world with a font program that does not parse. *)
Definition fontless_world : World :=
  mkWorld
    (int32_of_unrepresentable sample_world)
    (os_ReadFile sample_world)
    (fun _ => Err "bad font")
    (Scan sample_world)
    (DrawString sample_world)
    (os_Open sample_world)
    (image_Decode sample_world)
    (png_Encode sample_world)
    (ioutil_WriteFile sample_world).

(** Neither a write of a file nor anything but a write of [fname]. *)
Definition writes_only_to (fname : string) (e : event) : bool :=
  no_write e || writes_to fname e.

(** * Proofs *)

(** ** Wrap-around arithmetic *)

Lemma wrap_range (bits z : Z) :
  0 < bits -> - 2 ^ (bits - 1) <= GoInt.wrap bits z < 2 ^ (bits - 1).
Proof.
  intros Hb. unfold GoInt.wrap.
  assert (Hp : 2 ^ bits = 2 * 2 ^ (bits - 1)).
  { rewrite <- Z.pow_succ_r by lia. f_equal. lia. }
  assert (Hpos : 0 < 2 ^ (bits - 1)) by (apply Z.pow_pos_nonneg; lia).
  pose proof (Z.mod_pos_bound (z + 2 ^ (bits - 1)) (2 ^ bits)) as Hm.
  lia.
Qed.

Lemma wrap_small (bits z : Z) :
  0 < bits -> - 2 ^ (bits - 1) <= z < 2 ^ (bits - 1) -> GoInt.wrap bits z = z.
Proof.
  intros Hb Hz. unfold GoInt.wrap.
  assert (Hp : 2 ^ bits = 2 * 2 ^ (bits - 1)).
  { rewrite <- Z.pow_succ_r by lia. f_equal. lia. }
  rewrite Z.mod_small by lia. lia.
Qed.

Lemma wrap_congr (bits a b : Z) :
  0 < bits -> (a - b) mod 2 ^ bits = 0 -> GoInt.wrap bits a = GoInt.wrap bits b.
Proof.
  intros Hb Hab. unfold GoInt.wrap. f_equal.
  assert (Hpos : 0 < 2 ^ bits) by (apply Z.pow_pos_nonneg; lia).
  apply Z.mod_divide in Hab; [|lia]. destruct Hab as [k Hk].
  replace (a + 2 ^ (bits - 1)) with (b + 2 ^ (bits - 1) + k * 2 ^ bits) by lia.
  apply Z.mod_add. lia.
Qed.

Lemma wrap_diff (bits z : Z) :
  0 < bits -> (GoInt.wrap bits z - z) mod 2 ^ bits = 0.
Proof.
  intros Hb. unfold GoInt.wrap.
  assert (Hpos : 0 < 2 ^ bits) by (apply Z.pow_pos_nonneg; lia).
  pose proof (Z.div_mod (z + 2 ^ (bits - 1)) (2 ^ bits)) as Hd.
  replace ((z + 2 ^ (bits - 1)) mod 2 ^ bits - 2 ^ (bits - 1) - z)
    with (- ((z + 2 ^ (bits - 1)) / 2 ^ bits) * 2 ^ bits) by lia.
  apply Z.mod_mul. lia.
Qed.

Lemma int_range (z : Z) : - 2 ^ 63 <= GoInt.int z < 2 ^ 63.
Proof. apply (wrap_range 64 z). lia. Qed.

Lemma int_small (z : Z) : - 2 ^ 63 <= z < 2 ^ 63 -> GoInt.int z = z.
Proof. apply (wrap_small 64 z). lia. Qed.

Lemma int32_range (z : Z) : - 2 ^ 31 <= GoInt.int32 z < 2 ^ 31.
Proof. apply (wrap_range 32 z). lia. Qed.

Lemma int32_small (z : Z) : - 2 ^ 31 <= z < 2 ^ 31 -> GoInt.int32 z = z.
Proof. apply (wrap_small 32 z). lia. Qed.

(** Additions and multiplications may be done on the mathematical integers
    and wrapped once at the end. *)
Lemma int_add_mul (a b c d : Z) :
  GoInt.add (GoInt.mul a b) (GoInt.mul c d) = GoInt.int (a * b + c * d).
Proof.
  unfold GoInt.add, GoInt.mul, GoInt.int. apply wrap_congr; [lia|].
  pose proof (wrap_diff 64 (a * b) ltac:(lia)) as H1.
  pose proof (wrap_diff 64 (c * d) ltac:(lia)) as H2.
  apply Z.mod_divide in H1; [|lia]. apply Z.mod_divide in H2; [|lia].
  apply Z.mod_divide; [lia|].
  replace (GoInt.wrap 64 (a * b) + GoInt.wrap 64 (c * d) - (a * b + c * d))
    with ((GoInt.wrap 64 (a * b) - a * b) + (GoInt.wrap 64 (c * d) - c * d))
    by lia.
  now apply Z.divide_add_r.
Qed.

(** The ceiling of a 26.6 number is a small integer. *)
Lemma Ceil_range (x : Z) : - 2 ^ 25 <= fixed.Ceil x < 2 ^ 25.
Proof.
  unfold fixed.Ceil. rewrite Z.shiftr_div_pow2 by lia.
  pose proof (int32_range (x + 63)) as Hr.
  split.
  - apply Z.div_le_lower_bound; lia.
  - apply Z.div_lt_upper_bound; lia.
Qed.

Lemma Ceil_small (x : Z) :
  - 2 ^ 31 <= x + 63 < 2 ^ 31 -> fixed.Ceil x = (x + 63) / 64.
Proof.
  intros H. unfold fixed.Ceil. rewrite int32_small by lia.
  now rewrite Z.shiftr_div_pow2 by lia.
Qed.

(** ** The Placement Calculator *)


Lemma Dx_width (r : Rectangle) : rect_ok r -> Dx r = width r /\ 0 <= width r.
Proof.
  unfold rect_ok, coord_ok, Dx, width, GoInt.sub. intros H.
  split; [apply int_small|]; lia.
Qed.

Lemma Dy_height (r : Rectangle) : rect_ok r -> Dy r = height r /\ 0 <= height r.
Proof.
  unfold rect_ok, coord_ok, Dy, height, GoInt.sub. intros H.
  split; [apply int_small|]; lia.
Qed.

Lemma Rect_ordered (x0 y0 x1 y1 : Z) :
  x0 <= x1 -> y0 <= y1 -> Rect x0 y0 x1 y1 = mkRectangle (Pt x0 y0) (Pt x1 y1).
Proof.
  intros Hx Hy. unfold Rect.
  destruct (Z.gtb_spec x0 x1); [lia|]. destruct (Z.gtb_spec y0 y1); [lia|].
  reflexivity.
Qed.




(** Away from the origin the two differ.  On a canvas that spans
    (10,10)-(110,110), which [main] never builds, with a text of 20x20 and
    the anchor [tr], [textRect] takes the slack from the right edge 110 of
    the canvas and gives (100,10)-(120,30), where [textRect_spec] gives
    (90,10)-(110,30). *)
Remark textRect_slack_off_origin :
  textRect offset_canvas small_text "tr"
  = Some (mkRectangle (Pt 100 10) (Pt 120 30)) /\
  textRect_spec (Bounds offset_canvas) (Bounds small_text) "tr"
  = Some (mkRectangle (Pt 90 10) (Pt 110 30)).
Proof. split; reflexivity. Qed.

(** On that canvas, with the anchor [br], the rectangle is
    (100,100)-(120,120). *)
Remark textRect_br_off_origin :
  width (Bounds small_text) <= width (Bounds offset_canvas) /\
  height (Bounds small_text) <= height (Bounds offset_canvas) /\
  textRect offset_canvas small_text "br"
  = Some (mkRectangle (Pt 100 100) (Pt 120 120)) /\
  Max (Bounds offset_canvas) = Pt 110 110.
Proof. repeat split; vm_compute; congruence. Qed.

(** ** The Bounds Estimator *)

Lemma maxBytes_nonneg (lines : list string) : 0 <= maxBytes lines.
Proof.
  unfold maxBytes. induction lines as [|l ls IH]; simpl; lia.
Qed.

(** The loop of [bounds] computes the largest byte count. *)
Lemma maxLen_loop (lines : list string) (a : Z) :
  0 <= a ->
  fold_left (fun maxLen line =>
               let l := len line in if l >? maxLen then l else maxLen)
            lines a
  = Z.max a (maxBytes lines).
Proof.
  revert a. induction lines as [|l ls IH]; intros a Ha; simpl.
  - unfold maxBytes. simpl. lia.
  - assert (Hl : 0 <= len l) by (unfold len; lia).
    destruct (Z.gtb_spec (len l) a); rewrite IH by lia;
      unfold maxBytes; simpl; fold (maxBytes ls); lia.
Qed.

(** What [bounds] computes, the arithmetic wrapped once. *)
Lemma bounds_wrapped (W : World) (fl : Flags) (ctx : freetype.Context)
  (lines : list string) :
  bounds W fl ctx lines
  = Rect 0 0
      (GoInt.int (maxBytes lines * po W fl ctx + 4 * po W fl ctx))
      (GoInt.int (Z.of_nat (List.length lines) * vs W fl ctx
                  + 4 * po W fl ctx)).
Proof.
  unfold bounds. cbv zeta. rewrite maxLen_loop by lia.
  rewrite Z.max_r by apply maxBytes_nonneg.
  rewrite !int_add_mul. reflexivity.
Qed.

(** The estimate when it is not negative and fits an [int]. *)
Lemma bounds_exact (W : World) (fl : Flags) (ctx : freetype.Context)
  (lines : list string) :
  0 <= maxBytes lines * po W fl ctx + 4 * po W fl ctx < 2 ^ 63 ->
  0 <= Z.of_nat (List.length lines) * vs W fl ctx + 4 * po W fl ctx < 2 ^ 63 ->
  bounds W fl ctx lines
  = mkRectangle (Pt 0 0)
      (Pt (maxBytes lines * po W fl ctx + 4 * po W fl ctx)
          (Z.of_nat (List.length lines) * vs W fl ctx + 4 * po W fl ctx)).
Proof.
  intros Hw Hh. rewrite bounds_wrapped.
  rewrite !int_small by lia. apply Rect_ordered; lia.
Qed.

(** On ASCII text the byte count of a line is its character count. *)
Lemma charCount_ascii (s : string) : ascii_line s -> charCount s = len s.
Proof.
  unfold ascii_line, len. induction s as [|c r IH]; intros H.
  - reflexivity.
  - simpl list_ascii_of_string in H. inversion H as [|? ? Hc Hr]; subst.
    cbn [charCount String.length]. rewrite IH by assumption.
    destruct (Z.leb_spec 128 (fmt.byte c)); [lia|]. simpl andb. cbv iota. lia.
Qed.

Lemma maxChars_ascii (lines : list string) :
  Forall ascii_line lines -> maxChars lines = maxBytes lines.
Proof.
  unfold maxChars, maxBytes. induction 1 as [|l ls Hl Hls IH]; simpl.
  - reflexivity.
  - now rewrite IH, charCount_ascii.
Qed.

(** C3, as stated, fails: the line made of the one character U+00E9 is two
    bytes long, and at the default size the estimate is 90 pixels wide, the
    width for two characters, where the specification has 75. *)
Lemma bounds_counts_bytes :
  let fl := default_flags "out.png" in
  let ctx := configured fl (globals fl sample_font) in
  maxChars [e_acute] = 1 /\
  bounds sample_world fl ctx [e_acute]
  = mkRectangle (Pt 0 0) (Pt 90 78) /\
  bounds_spec sample_world fl ctx [e_acute]
  = mkRectangle (Pt 0 0) (Pt 75 78) /\
  bounds sample_world fl ctx [e_acute]
  <> bounds_spec sample_world fl ctx [e_acute].
Proof.
  cbv zeta. repeat split; try (vm_compute; reflexivity).
  vm_compute. discriminate.
Qed.

(** C3, amended.  [bounds] returns the rectangle from (0,0) to
    (maxLen*po + 4*po, numLines*vs + 4*po), where maxLen is the byte count
    of the longest line (the character count when the text is ASCII), 0 if
    there are no lines, po is the ceiling of the pixel size of the font size
    and vs that of the font size plus two points, provided the two sums are
    not negative and fit an [int]. *)
Theorem bounds_formula (W : World) (fl : Flags) (ctx : freetype.Context)
  (lines : list string) :
  let maxLen := maxBytes lines in
  let numLines := Z.of_nat (List.length lines) in
  let po := fixed.Ceil (PointToFixed W ctx (fontSize fl)) in
  let vs := fixed.Ceil (PointToFixed W ctx (fontSize fl + 2)%float) in
  0 <= maxLen * po + 4 * po < 2 ^ 63 ->
  0 <= numLines * vs + 4 * po < 2 ^ 63 ->
  bounds W fl ctx lines
  = mkRectangle (Pt 0 0) (Pt (maxLen * po + 4 * po) (numLines * vs + 4 * po))
  /\ (Forall ascii_line lines -> maxLen = maxChars lines).
Proof.
  intros maxLen numLines po' vs' Hw Hh. split.
  - now apply bounds_exact.
  - intros Ha. symmetry. now apply maxChars_ascii.
Qed.

Lemma bounds_formula_witness :
  bounds sample_world (default_flags "out.png")
    (configured (default_flags "out.png")
       (globals (default_flags "out.png") sample_font))
    ["LGTM"; "ok"]
  = mkRectangle (Pt 0 0) (Pt (4 * 15 + 4 * 15) (2 * 18 + 4 * 15))
  /\ 4 = maxChars ["LGTM"; "ok"].
Proof.
  destruct (bounds_formula sample_world (default_flags "out.png")
              (configured (default_flags "out.png")
                 (globals (default_flags "out.png") sample_font))
              ["LGTM"; "ok"]) as [Hb Hc].
  - vm_compute. split; congruence.
  - vm_compute. split; congruence.
  - split; [exact Hb|]. apply Hc.
    repeat constructor; vm_compute; reflexivity.
Defined.

(** C5, as stated, fails: from the line of two characters U+00E9 U+00E9 to
    the line [abc] the character count of the longest line grows from 2
    to 3 and the number of lines stays 1, yet the estimated width shrinks
    from 120 to 105 pixels. *)
Lemma bounds_not_monotone_in_characters :
  let fl := default_flags "out.png" in
  let ctx := configured fl (globals fl sample_font) in
  let l1 := [(e_acute ++ e_acute)%string] in
  let l2 := ["abc"] in
  maxChars l1 = 2 /\ maxChars l2 = 3 /\
  List.length l1 = List.length l2 /\
  Dx (bounds sample_world fl ctx l1) = 120 /\
  Dx (bounds sample_world fl ctx l2) = 105 /\
  ~ Dx (bounds sample_world fl ctx l1) <= Dx (bounds sample_world fl ctx l2).
Proof.
  cbv zeta. repeat split; try (vm_compute; reflexivity).
  vm_compute. intros H. now apply H.
Qed.

(** C5, amended.  With the font size and the DPI fixed, and pixel sizes po
    and vs that are not negative, the width and the height of the estimate
    do not decrease when the byte count of the longest line and the number
    of lines do not, as long as the larger estimate fits an [int]. *)
Theorem bounds_monotone (W : World) (fl : Flags) (ctx : freetype.Context)
  (l1 l2 : list string) :
  0 <= po W fl ctx -> 0 <= vs W fl ctx ->
  maxBytes l1 <= maxBytes l2 ->
  (List.length l1 <= List.length l2)%nat ->
  maxBytes l2 * po W fl ctx + 4 * po W fl ctx < 2 ^ 63 ->
  Z.of_nat (List.length l2) * vs W fl ctx + 4 * po W fl ctx < 2 ^ 63 ->
  Dx (bounds W fl ctx l1) <= Dx (bounds W fl ctx l2) /\
  Dy (bounds W fl ctx l1) <= Dy (bounds W fl ctx l2).
Proof.
  intros Hpo Hvs Hm Hn Hw Hh.
  pose proof (maxBytes_nonneg l1) as H1. pose proof (maxBytes_nonneg l2) as H2.
  assert (Hw1 : maxBytes l1 * po W fl ctx <= maxBytes l2 * po W fl ctx)
    by (apply Z.mul_le_mono_nonneg_r; lia).
  assert (Hh1 : Z.of_nat (List.length l1) * vs W fl ctx
                <= Z.of_nat (List.length l2) * vs W fl ctx)
    by (apply Z.mul_le_mono_nonneg_r; lia).
  assert (Hw0 : 0 <= maxBytes l1 * po W fl ctx) by (apply Z.mul_nonneg_nonneg; lia).
  assert (Hh0 : 0 <= Z.of_nat (List.length l1) * vs W fl ctx)
    by (apply Z.mul_nonneg_nonneg; lia).
  rewrite (bounds_exact W fl ctx l1), (bounds_exact W fl ctx l2) by lia.
  unfold Dx, Dy, GoInt.sub. cbn [X Y Min Max].
  rewrite !int_small by lia. lia.
Qed.

Lemma bounds_monotone_witness :
  Dx (bounds sample_world (default_flags "out.png")
        (configured (default_flags "out.png")
           (globals (default_flags "out.png") sample_font)) ["ok"])
  <= Dx (bounds sample_world (default_flags "out.png")
        (configured (default_flags "out.png")
           (globals (default_flags "out.png") sample_font)) ["LGTM"; "ok"])
  /\
  Dy (bounds sample_world (default_flags "out.png")
        (configured (default_flags "out.png")
           (globals (default_flags "out.png") sample_font)) ["ok"])
  <= Dy (bounds sample_world (default_flags "out.png")
        (configured (default_flags "out.png")
           (globals (default_flags "out.png") sample_font)) ["LGTM"; "ok"]).
Proof.
  apply (bounds_monotone sample_world (default_flags "out.png")
           (configured (default_flags "out.png")
              (globals (default_flags "out.png") sample_font))
           ["ok"] ["LGTM"; "ok"]);
    try (vm_compute; congruence).
  simpl. lia.
Defined.

(** ** The Text Renderer *)

Lemma Rect_int_rect (x0 y0 x1 y1 : Z) :
  GoInt.in_int x0 -> GoInt.in_int y0 -> GoInt.in_int x1 -> GoInt.in_int y1 ->
  int_rect (Rect x0 y0 x1 y1).
Proof.
  unfold int_rect, GoInt.in_int, Rect. intros.
  destruct (Z.gtb_spec x0 x1); destruct (Z.gtb_spec y0 y1); simpl; lia.
Qed.

Lemma bounds_int_rect (W : World) (fl : Flags) (ctx : freetype.Context)
  (lines : list string) : int_rect (bounds W fl ctx lines).
Proof.
  rewrite bounds_wrapped.
  apply Rect_int_rect; unfold GoInt.in_int; try lia; apply int_range.
Qed.

(** The bounds of a sub-image are the intersection. *)
Lemma SubImage_Intersect (p : Image) (r : Rectangle) :
  SubImage p r = mkImage (Intersect r (Bounds p)).
Proof.
  unfold SubImage. destruct (Empty (Intersect r (Bounds p))) eqn:He;
    [|reflexivity].
  unfold Intersect in *.
  match type of He with
  | Empty (if Empty ?q then _ else _) = _ => destruct (Empty q) eqn:Hq
  end; [reflexivity|congruence].
Qed.

(** When [image.NewRGBA] returns: neither side is negative, four times
    the width fits 64 bits, and the buffer is within [runtime.maxAlloc]. *)
Lemma NewRGBA_spec (r : Rectangle) (img : Image) :
  NewRGBA r = Some img <->
  img = mkImage r /\ 0 <= Dx r /\ 0 <= Dy r /\
  4 * Dx r < 2 ^ 64 /\ 4 * Dx r * Dy r <= 2 ^ 48.
Proof.
  unfold NewRGBA, mul3NonNeg, runtime.maxAlloc. cbv zeta.
  change (4 <? 0) with false. cbn [orb].
  destruct (Z.ltb_spec (Dx r) 0); destruct (Z.ltb_spec (Dy r) 0); cbn [orb];
    try (change (-1 <? 0) with true; cbv iota;
         split; [discriminate|intros; lia]).
  destruct (Z.leb_spec (2 ^ 64) (4 * Dx r));
    try (change (-1 <? 0) with true; cbv iota;
         split; [discriminate|intros; lia]).
  assert (Hp : 0 <= 4 * Dx r * Dy r) by (apply Z.mul_nonneg_nonneg; lia).
  destruct (Z.leb_spec (2 ^ 64) (4 * Dx r * Dy r));
    try (change (-1 <? 0) with true; cbv iota;
         split; [discriminate|intros; lia]).
  destruct (Z.leb_spec (2 ^ 63) (4 * Dx r * Dy r));
    try (change (-1 <? 0) with true; cbv iota;
         split; [discriminate|intros; lia]).
  destruct (Z.ltb_spec (4 * Dx r * Dy r) 0); [lia|].
  destruct (Z.gtb_spec (4 * Dx r * Dy r) (2 ^ 48)).
  - split; [discriminate|intros; lia].
  - split.
    + intros Hs. inversion Hs. repeat split; lia.
    + intros (-> & _). reflexivity.
Qed.

Lemma NewRGBA_Some (r : Rectangle) (img : Image) :
  NewRGBA r = Some img -> Bounds img = r /\ 0 <= Dx r /\ 0 <= Dy r.
Proof.
  intros H. apply NewRGBA_spec in H. destruct H as (-> & Hx & Hy & _).
  cbn [Bounds]. auto.
Qed.

(** A difference of two [int]s in order that Go finds not negative did
    not wrap. *)
Lemma int_sub_nonneg (a b : Z) :
  GoInt.in_int a -> GoInt.in_int b -> a <= b -> 0 <= GoInt.sub b a ->
  GoInt.sub b a = b - a.
Proof.
  unfold GoInt.in_int, GoInt.sub. intros Ha Hb Hab H0.
  destruct (Z_lt_ge_dec (b - a) (2 ^ 63)) as [Hlt|Hge];
    [apply int_small; lia|].
  exfalso. unfold GoInt.int, GoInt.wrap in H0.
  replace (b - a + 2 ^ (64 - 1)) with ((b - a - 2 ^ 63) + 1 * 2 ^ 64) in H0
    by lia.
  rewrite Z.mod_add in H0 by lia. rewrite Z.mod_small in H0 by lia. lia.
Qed.

(** No sub-image is wider or higher than the image it is taken from. *)
Lemma SubImage_within (r q : Rectangle) (img : Image) :
  int_rect r -> NewRGBA r = Some img ->
  Dx (Bounds (SubImage img q)) <= Dx r /\ Dy (Bounds (SubImage img q)) <= Dy r.
Proof.
  intros Hr Hn. destruct (NewRGBA_Some _ _ Hn) as (Hb & Hx & Hy).
  rewrite SubImage_Intersect. cbn [Bounds]. rewrite Hb.
  unfold int_rect, GoInt.in_int in Hr.
  assert (Hdx : Dx r = X (Max r) - X (Min r))
    by (apply int_sub_nonneg; unfold GoInt.in_int; tauto || lia).
  assert (Hdy : Dy r = Y (Max r) - Y (Min r))
    by (apply int_sub_nonneg; unfold GoInt.in_int; tauto || lia).
  unfold Intersect.
  match goal with
  | |- context [Empty ?i] => destruct (Empty i) eqn:He
  end.
  - change (Dx ZR) with 0. change (Dy ZR) with 0. lia.
  - unfold Empty in He. cbn [X Y Min Max] in He.
    apply orb_false_elim in He. destruct He as [Hex Hey].
    rewrite Z.geb_leb in Hex, Hey. apply Z.leb_gt in Hex, Hey.
    pose proof (int_range (X (Max r) - X (Min r))) as Hrx.
    pose proof (int_range (Y (Max r) - Y (Min r))) as Hry.
    fold (GoInt.sub (X (Max r)) (X (Min r))) in Hrx.
    fold (GoInt.sub (Y (Max r)) (Y (Min r))) in Hry.
    fold (Dx r) in Hrx. fold (Dy r) in Hry.
    rewrite Hdx in *. rewrite Hdy in *.
    unfold Dx, Dy, GoInt.sub. cbn [X Y Min Max].
    revert Hex Hey.
    destruct (Z.ltb_spec (X (Min q)) (X (Min r)));
      destruct (Z.ltb_spec (Y (Min q)) (Y (Min r)));
      destruct (Z.gtb_spec (X (Max q)) (X (Max r)));
      destruct (Z.gtb_spec (Y (Max q)) (Y (Max r)));
      intros Hex Hey; rewrite !int_small by lia; lia.
Qed.

(** No sub-image has a negative width or height. *)
Lemma SubImage_nonneg (r q : Rectangle) (img : Image) :
  int_rect r -> NewRGBA r = Some img ->
  0 <= Dx (Bounds (SubImage img q)) /\ 0 <= Dy (Bounds (SubImage img q)).
Proof.
  intros Hr Hn. destruct (NewRGBA_Some _ _ Hn) as (Hb & Hx & Hy).
  rewrite SubImage_Intersect. cbn [Bounds]. rewrite Hb.
  unfold int_rect, GoInt.in_int in Hr.
  assert (Hdx : Dx r = X (Max r) - X (Min r))
    by (apply int_sub_nonneg; unfold GoInt.in_int; tauto || lia).
  assert (Hdy : Dy r = Y (Max r) - Y (Min r))
    by (apply int_sub_nonneg; unfold GoInt.in_int; tauto || lia).
  unfold Intersect.
  match goal with
  | |- context [Empty ?i] => destruct (Empty i) eqn:He
  end.
  - change (Dx ZR) with 0. change (Dy ZR) with 0. lia.
  - unfold Empty in He. cbn [X Y Min Max] in He.
    apply orb_false_elim in He. destruct He as [Hex Hey].
    rewrite Z.geb_leb in Hex, Hey. apply Z.leb_gt in Hex, Hey.
    pose proof (int_range (X (Max r) - X (Min r))) as Hrx.
    pose proof (int_range (Y (Max r) - Y (Min r))) as Hry.
    fold (GoInt.sub (X (Max r)) (X (Min r))) in Hrx.
    fold (GoInt.sub (Y (Max r)) (Y (Min r))) in Hry.
    fold (Dx r) in Hrx. fold (Dy r) in Hry.
    rewrite Hdx in *. rewrite Hdy in *.
    unfold Dx, Dy, GoInt.sub. cbn [X Y Min Max].
    revert Hex Hey.
    destruct (Z.ltb_spec (X (Min q)) (X (Min r)));
      destruct (Z.ltb_spec (Y (Min q)) (Y (Min r)));
      destruct (Z.gtb_spec (X (Max q)) (X (Max r)));
      destruct (Z.gtb_spec (Y (Max q)) (Y (Max r)));
      intros Hex Hey; rewrite !int_small by lia; lia.
Qed.

(** C2. Whatever the lines, the configuration and the rasterizer, the image
    that [render] returns is no wider and no higher than the rectangle that
    [bounds] gives for the same lines and configuration. *)
Theorem render_within_bounds (W : World) (fl : Flags) (g : Globals)
  (lines : list string) (img : Image) :
  render W fl g lines = Ok img ->
  Dx (Bounds img) <= Dx (bounds W fl (configured fl g) lines) /\
  Dy (Bounds img) <= Dy (bounds W fl (configured fl g) lines).
Proof.
  unfold render. fold (configured fl g). cbv zeta.
  destruct (NewRGBA (bounds W fl (configured fl g) lines)) as [big|] eqn:Hn;
    [|discriminate].
  match goal with
  | |- context [draw_lines ?w ?c ?v ?l ?p ?b] =>
      destruct (draw_lines w c v l p b) as [[p' b']|e|]
  end; try discriminate.
  intros H. inversion H; subst.
  apply SubImage_within; [apply bounds_int_rect|assumption].
Qed.

Lemma render_within_bounds_witness :
  Dx (mkRectangle (Pt 0 0) (Pt 68 50))
  <= Dx (bounds sample_world (default_flags "out.png")
           (configured (default_flags "out.png")
              (globals (default_flags "out.png") sample_font)) ["LGTM"]) /\
  Dy (mkRectangle (Pt 0 0) (Pt 68 50))
  <= Dy (bounds sample_world (default_flags "out.png")
           (configured (default_flags "out.png")
              (globals (default_flags "out.png") sample_font)) ["LGTM"]).
Proof.
  apply (render_within_bounds sample_world (default_flags "out.png")
           (globals (default_flags "out.png") sample_font) ["LGTM"]
           (mkImage (mkRectangle (Pt 0 0) (Pt 68 50)))).
  vm_compute. reflexivity.
Defined.

(** With no line, [render] goes as far as the allocation of the estimate
    and then crops. *)
Lemma render_nil (W : World) (fl : Flags) (g : Globals) :
  render W fl g []
  = match NewRGBA (bounds W fl (configured fl g) []) with
    | Some _ =>
        Ok (mkImage (Intersect (Rect 0 0 16 16)
                       (bounds W fl (configured fl g) [])))
    | None => Panic
    end.
Proof.
  unfold render. fold (configured fl g). cbv zeta.
  destruct (NewRGBA (bounds W fl (configured fl g) [])) as [big|] eqn:Hn;
    [|reflexivity].
  apply NewRGBA_Some in Hn. destruct Hn as (Hb & _ & _).
  cbn [draw_lines]. rewrite SubImage_Intersect, Hb. reflexivity.
Qed.

(** C10, as stated, fails: at 33554431 points and 72 DPI the estimate for
    no line is 2^27 pixels a side less four, a buffer of some 2^56 bytes,
    which [image.NewRGBA] cannot make: [render] panics. *)
Lemma render_no_lines_huge_font :
  render sample_world (with_size (default_flags "out.png") 33554431 72)
    (globals (with_size (default_flags "out.png") 33554431 72) sample_font)
    []
  = Panic.
Proof. vm_compute. reflexivity. Qed.

(** C10, amended.  With no line at all [render] returns no error; whenever
    the image of the estimated size can be allocated, it returns an image
    whose bounds are the intersection of (0,0)-(16,16) with the estimate,
    and when it cannot, the allocation panics.  At the default font size of
    11 points and 96 DPI the estimate is allocated and the image is 16 by
    16 pixels. *)
Theorem render_no_lines (W : World) (fl : Flags) (g : Globals) :
  (forall e, render W fl g [] <> Err e) /\
  (NewRGBA (bounds W fl (configured fl g) []) <> None ->
   render W fl g []
   = Ok (mkImage (Intersect (Rect 0 0 16 16)
                    (bounds W fl (configured fl g) [])))) /\
  (NewRGBA (bounds W fl (configured fl g) []) = None ->
   render W fl g [] = Panic) /\
  (fontSize fl = 11%float -> dpi fl = 96%float ->
   render W fl g [] = Ok (mkImage (mkRectangle (Pt 0 0) (Pt 16 16))) /\
   Dx (mkRectangle (Pt 0 0) (Pt 16 16)) = 16 /\
   Dy (mkRectangle (Pt 0 0) (Pt 16 16)) = 16).
Proof.
  rewrite render_nil. split; [|split; [|split]].
  - intros e. destruct (NewRGBA (bounds W fl (configured fl g) []));
      discriminate.
  - intros Hn. destruct (NewRGBA (bounds W fl (configured fl g) []));
      [reflexivity|congruence].
  - intros ->. reflexivity.
  - intros Hs Hd. split; [|split; reflexivity].
    destruct fl. cbn [fontSize dpi] in Hs, Hd. subst.
    vm_compute. reflexivity.
Qed.

Lemma render_no_lines_witness :
  render sample_world (default_flags "out.png")
    (globals (default_flags "out.png") sample_font) []
  = Ok (mkImage (Intersect (Rect 0 0 16 16)
                   (bounds sample_world (default_flags "out.png")
                      (configured (default_flags "out.png")
                         (globals (default_flags "out.png") sample_font))
                      []))) /\
  render sample_world (default_flags "out.png")
    (globals (default_flags "out.png") sample_font) []
  = Ok (mkImage (mkRectangle (Pt 0 0) (Pt 16 16))).
Proof.
  destruct (render_no_lines sample_world (default_flags "out.png")
              (globals (default_flags "out.png") sample_font))
    as (_ & Hok & _ & Hdef).
  split.
  - apply Hok. vm_compute. discriminate.
  - apply Hdef; reflexivity.
Defined.

(** ** The Color Parser *)

Lemma hexval_range (c : ascii) (d : Z) :
  fmt.hexval c = Some d ->
  0 <= d < 16 /\
  (48 <= fmt.byte c <= 57 \/ 65 <= fmt.byte c <= 70 \/ 97 <= fmt.byte c <= 102).
Proof.
  unfold fmt.hexval. cbv zeta.
  destruct (Z.leb_spec 48 (fmt.byte c)); destruct (Z.leb_spec (fmt.byte c) 57);
    destruct (Z.leb_spec 97 (fmt.byte c)); destruct (Z.leb_spec (fmt.byte c) 102);
    destruct (Z.leb_spec 65 (fmt.byte c)); destruct (Z.leb_spec (fmt.byte c) 70);
    simpl; intros Hv; inversion Hv; subst; lia.
Qed.

Lemma ParseUint_nonneg (tok : string) (n i : Z) :
  0 <= n -> fmt.ParseUint tok n = Some i -> 0 <= i.
Proof.
  revert n. induction tok as [|c r IH]; intros n Hn; simpl.
  - intros H. inversion H. lia.
  - destruct (fmt.hexval c) as [d|] eqn:Hd; [|discriminate].
    apply IH. apply hexval_range in Hd. lia.
Qed.

(** Whatever the string, the scanned value is a [uint32]. *)
Lemma Sscanf_x_range (str : string) :
  0 <= fmt.Sscanf_x str 0 < 2 ^ 32.
Proof.
  unfold fmt.Sscanf_x, fmt.scanUint.
  destruct (fmt.SkipSpace str) as [s'|]; [|lia].
  destruct (fmt.scanNumber s') as [|c r]; [lia|].
  destruct (fmt.ParseUint (String c r) 0) as [i|] eqn:Hp; [|lia].
  destruct (Z.ltb_spec i (2 ^ 32)); [|lia].
  apply ParseUint_nonneg in Hp; lia.
Qed.

(** A hexadecimal digit is no space: nothing is skipped before it. *)
Lemma SkipSpace_digit (c : ascii) (r : string) (d : Z) :
  fmt.hexval c = Some d -> fmt.SkipSpace (String c r) = Some (String c r).
Proof.
  intros Hd. apply hexval_range in Hd. destruct Hd as [_ Hb].
  cbn [fmt.SkipSpace].
  destruct (Z.eqb_spec (fmt.byte c) 10); [lia|].
  assert (H1 : fmt.space1 c = false).
  { unfold fmt.space1. cbv zeta.
    repeat match goal with
           | |- context [Z.eqb ?a ?b] => destruct (Z.eqb_spec a b); [lia|]
           end. reflexivity. }
  rewrite H1.
  destruct r as [|c2 r2]; [reflexivity|].
  assert (H2 : fmt.space2 c c2 = false).
  { unfold fmt.space2. destruct (Z.eqb_spec (fmt.byte c) 194); [lia|].
    reflexivity. }
  rewrite H2.
  destruct r2 as [|c3 r3]; [reflexivity|].
  assert (H3 : fmt.space3 c c2 c3 = false).
  { unfold fmt.space3.
    destruct (Z.eqb_spec (fmt.byte c) 225); [lia|].
    destruct (Z.eqb_spec (fmt.byte c) 226); [lia|].
    destruct (Z.eqb_spec (fmt.byte c) 227); [lia|].
    reflexivity. }
  now rewrite H3.
Qed.

Lemma scanNumber_hex (s : string) : is_hex s = true -> fmt.scanNumber s = s.
Proof.
  induction s as [|c r IH]; simpl; [reflexivity|].
  unfold fmt.accept. destruct (fmt.hexval c); [|discriminate].
  intros H. now rewrite IH.
Qed.

Lemma hex_value_bound (s : string) :
  0 <= hex_value s < 16 ^ Z.of_nat (String.length s).
Proof.
  induction s as [|c r IH]; cbn [hex_value String.length].
  - simpl. lia.
  - rewrite Nat2Z.inj_succ, Z.pow_succ_r by lia.
    assert (Hp : 0 < 16 ^ Z.of_nat (String.length r))
      by (apply Z.pow_pos_nonneg; lia).
    destruct (fmt.hexval c) as [d|] eqn:Hd; [|lia].
    apply hexval_range in Hd. nia.
Qed.

(** [ParseUint] reads the digits as a number in base 16. *)
Lemma ParseUint_hex (s : string) (n : Z) :
  is_hex s = true ->
  fmt.ParseUint s n
  = Some (n * 16 ^ Z.of_nat (String.length s) + hex_value s).
Proof.
  revert n. induction s as [|c r IH]; intros n; cbn [is_hex fmt.ParseUint
    hex_value String.length].
  - intros _. f_equal. simpl. lia.
  - destruct (fmt.hexval c) as [d|]; [|discriminate].
    intros H. rewrite IH by assumption. f_equal.
    rewrite Nat2Z.inj_succ, Z.pow_succ_r by lia. ring.
Qed.

(** A string of one to eight hexadecimal digits scans as the number it
    denotes. *)
Lemma Sscanf_x_hex (s : string) (c0 : Z) :
  is_hex s = true -> (1 <= String.length s <= 8)%nat ->
  fmt.Sscanf_x s c0 = hex_value s.
Proof.
  intros Hh Hl. unfold fmt.Sscanf_x, fmt.scanUint.
  destruct s as [|c r]; [simpl in Hl; lia|].
  assert (Hs : fmt.SkipSpace (String c r) = Some (String c r)).
  { simpl in Hh. destruct (fmt.hexval c) as [d|] eqn:Hd; [|discriminate].
    eapply SkipSpace_digit; eassumption. }
  rewrite Hs, scanNumber_hex by assumption.
  rewrite ParseUint_hex by assumption.
  pose proof (hex_value_bound (String c r)) as Hb.
  assert (Hp : 16 ^ Z.of_nat (String.length (String c r)) <= 16 ^ 8)
    by (apply Z.pow_le_mono_r; lia).
  change (16 ^ 8) with (2 ^ 32) in Hp.
  rewrite Z.mul_0_l, Z.add_0_l.
  destruct (Z.ltb_spec (hex_value (String c r)) (2 ^ 32)); [reflexivity|lia].
Qed.

Lemma channel_byte (x : Z) : Z.land x 255 mod 2 ^ 8 = x mod 2 ^ 8.
Proof.
  change 255 with (Z.ones 8). rewrite Z.land_ones by lia.
  apply Z.mod_mod. lia.
Qed.

(** The channels are the four bytes of the scanned number. *)
Lemma allocColorImage_parts (col : string) :
  let c := fmt.Sscanf_x col 0 in
  let k := C (allocColorImage col) in
  color.R k = c / 2 ^ 24 /\
  color.G k = (c / 2 ^ 16) mod 2 ^ 8 /\
  color.B k = (c / 2 ^ 8) mod 2 ^ 8 /\
  color.A k = c mod 2 ^ 8.
Proof.
  intros c k. pose proof (Sscanf_x_range col) as Hc. fold c in Hc.
  unfold k, allocColorImage. cbn [C color.R color.G color.B color.A]. fold c.
  rewrite !channel_byte, !Z.shiftr_div_pow2 by lia.
  repeat split; try reflexivity.
  apply Z.mod_small. split.
  - apply Z.div_pos; lia.
  - apply Z.div_lt_upper_bound; lia.
Qed.

(** The scanned number is put together again from the channels. *)
Lemma allocColorImage_sum (col : string) :
  let k := C (allocColorImage col) in
  fmt.Sscanf_x col 0
  = color.R k * 2 ^ 24 + color.G k * 2 ^ 16 + color.B k * 2 ^ 8 + color.A k.
Proof.
  intros k. pose proof (Sscanf_x_range col) as Hc.
  destruct (allocColorImage_parts col) as (HR & HG & HB & HA).
  fold k in HR, HG, HB, HA. rewrite HR, HG, HB, HA.
  set (c := fmt.Sscanf_x col 0) in *.
  pose proof (Z.div_mod c (2 ^ 8) ltac:(lia)) as H1.
  pose proof (Z.div_mod (c / 2 ^ 8) (2 ^ 8) ltac:(lia)) as H2.
  pose proof (Z.div_mod (c / 2 ^ 8 / 2 ^ 8) (2 ^ 8) ltac:(lia)) as H3.
  rewrite Z.div_div in H2, H3 by lia. rewrite Z.div_div in H3 by lia.
  change (2 ^ 8 * 2 ^ 8) with (2 ^ 16) in *.
  change (2 ^ 16 * 2 ^ 8) with (2 ^ 24) in *.
  assert (H4 : (c / 2 ^ 24) mod 2 ^ 8 = c / 2 ^ 24).
  { apply Z.mod_small. split; [apply Z.div_pos|apply Z.div_lt_upper_bound]; lia. }
  lia.
Qed.

(** C6. Whatever the string, [allocColorImage] returns a colour: the
    string is scanned as an unsigned 32-bit hexadecimal number [c], 0 when
    the scan fails, and the channels are its four bytes, R the bits 31 to
    24, G the bits 23 to 16, B the bits 15 to 8 and A the bits 7 to 0.  A
    string of one to eight hexadecimal digits scans as the number it
    denotes. *)
Theorem allocColorImage_channels (col : string) :
  let c := fmt.Sscanf_x col 0 in
  let k := C (allocColorImage col) in
  0 <= c < 2 ^ 32 /\
  color.R k = c / 2 ^ 24 /\
  color.G k = (c / 2 ^ 16) mod 2 ^ 8 /\
  color.B k = (c / 2 ^ 8) mod 2 ^ 8 /\
  color.A k = c mod 2 ^ 8 /\
  c = color.R k * 2 ^ 24 + color.G k * 2 ^ 16 + color.B k * 2 ^ 8 + color.A k /\
  (is_hex col = true -> (1 <= String.length col <= 8)%nat ->
   c = hex_value col).
Proof.
  intros c k. pose proof (Sscanf_x_range col) as Hc. fold c in Hc.
  destruct (allocColorImage_parts col) as (HR & HG & HB & HA).
  fold c in HR, HG, HB, HA. fold k in HR, HG, HB, HA.
  repeat split; try assumption; try lia.
  - apply allocColorImage_sum.
  - intros Hh Hl. unfold c. apply Sscanf_x_hex; assumption.
Qed.

Lemma allocColorImage_channels_witness :
  fmt.Sscanf_x "0a0b0cff" 0 = hex_value "0a0b0cff".
Proof.
  apply (allocColorImage_channels "0a0b0cff").
  - reflexivity.
  - simpl. lia.
Defined.

Lemma hexval_hexdigit (d : Z) :
  0 <= d < 16 -> fmt.hexval (hexdigit d) = Some d.
Proof.
  intros H.
  assert (Hd : d = 0 \/ d = 1 \/ d = 2 \/ d = 3 \/ d = 4 \/ d = 5 \/ d = 6 \/
               d = 7 \/ d = 8 \/ d = 9 \/ d = 10 \/ d = 11 \/ d = 12 \/
               d = 13 \/ d = 14 \/ d = 15) by lia.
  repeat (destruct Hd as [Hd|Hd]; [subst d; reflexivity|]).
  subst d; reflexivity.
Qed.

Lemma format_channel_hex (v : Z) :
  0 <= v < 256 ->
  is_hex (format_channel v) = true /\ hex_value (format_channel v) = v.
Proof.
  intros H. unfold format_channel.
  assert (H1 : 0 <= v / 16 < 16)
    by (split; [apply Z.div_pos|apply Z.div_lt_upper_bound]; lia).
  assert (H2 : 0 <= v mod 16 < 16) by (apply Z.mod_pos_bound; lia).
  cbn [is_hex hex_value String.length].
  rewrite !hexval_hexdigit by assumption. split; [reflexivity|].
  pose proof (Z.div_mod v 16 ltac:(lia)) as Hv.
  change (16 ^ Z.of_nat 1) with 16. change (16 ^ Z.of_nat 0) with 1. lia.
Qed.

Lemma is_hex_app (s t : string) :
  is_hex (s ++ t) = is_hex s && is_hex t.
Proof.
  induction s as [|c r IH]; simpl; [reflexivity|].
  destruct (fmt.hexval c); [assumption|reflexivity].
Qed.

Lemma length_app (s t : string) :
  String.length (s ++ t) = (String.length s + String.length t)%nat.
Proof. induction s as [|c r IH]; simpl; [reflexivity|now rewrite IH]. Qed.

Lemma hex_value_app (s t : string) :
  is_hex s = true ->
  hex_value (s ++ t)
  = hex_value s * 16 ^ Z.of_nat (String.length t) + hex_value t.
Proof.
  induction s as [|c r IH]; cbn [is_hex hex_value append]; [lia|].
  destruct (fmt.hexval c) as [d|]; [|discriminate].
  intros H. rewrite IH by assumption. rewrite length_app.
  rewrite Nat2Z.inj_add, Z.pow_add_r by lia. ring.
Qed.

(** Parsing the eight digits a colour is formatted to gives the colour
    back. *)
Lemma allocColorImage_format (k : color.NRGBA) :
  0 <= color.R k < 256 -> 0 <= color.G k < 256 ->
  0 <= color.B k < 256 -> 0 <= color.A k < 256 ->
  allocColorImage (format_hex8 k) = NewUniform k.
Proof.
  intros HR HG HB HA.
  destruct (format_channel_hex _ HR) as [hR vR].
  destruct (format_channel_hex _ HG) as [hG vG].
  destruct (format_channel_hex _ HB) as [hB vB].
  destruct (format_channel_hex _ HA) as [hA vA].
  assert (Hhex : is_hex (format_hex8 k) = true).
  { unfold format_hex8. rewrite !is_hex_app, hR, hG, hB, hA. reflexivity. }
  assert (Hlen : String.length (format_hex8 k) = 8%nat) by reflexivity.
  assert (Hval : hex_value (format_hex8 k)
                 = color.R k * 2 ^ 24 + color.G k * 2 ^ 16
                   + color.B k * 2 ^ 8 + color.A k).
  { unfold format_hex8.
    rewrite !hex_value_app by assumption. rewrite !length_app.
    rewrite vR, vG, vB, vA.
    change (String.length (format_channel (color.G k))) with 2%nat.
    change (String.length (format_channel (color.B k))) with 2%nat.
    change (String.length (format_channel (color.A k))) with 2%nat.
    change (16 ^ Z.of_nat (2 + (2 + 2))) with (2 ^ 24).
    change (16 ^ Z.of_nat (2 + 2)) with (2 ^ 16).
    change (16 ^ Z.of_nat 2) with (2 ^ 8). lia. }
  pose proof (allocColorImage_parts (format_hex8 k)) as Hp.
  cbv zeta in Hp. rewrite Sscanf_x_hex in Hp by (assumption || lia).
  rewrite Hval in Hp. destruct Hp as (pR & pG & pB & pA).
  destruct (allocColorImage (format_hex8 k)) as [[r g b a]].
  destruct k as [kr kg kb ka]. cbn [C color.R color.G color.B color.A] in *.
  f_equal.
  assert (r = kr).
  { rewrite pR. symmetry. apply Z.div_unique with (kg * 2 ^ 16 + kb * 2 ^ 8 + ka);
      lia. }
  assert (a = ka).
  { rewrite pA. symmetry.
    apply Z.mod_unique with (kr * 2 ^ 16 + kg * 2 ^ 8 + kb); lia. }
  assert (b = kb).
  { rewrite pB. symmetry.
    replace (kr * 2 ^ 24 + kg * 2 ^ 16 + kb * 2 ^ 8 + ka)
      with (ka + (kr * 2 ^ 16 + kg * 2 ^ 8 + kb) * 2 ^ 8) by lia.
    rewrite Z.div_add by lia. rewrite (Z.div_small ka) by lia.
    apply Z.mod_unique with (kr * 2 ^ 8 + kg); lia. }
  assert (g = kg).
  { rewrite pG. symmetry.
    replace (kr * 2 ^ 24 + kg * 2 ^ 16 + kb * 2 ^ 8 + ka)
      with ((kb * 2 ^ 8 + ka) + (kr * 2 ^ 8 + kg) * 2 ^ 16) by lia.
    rewrite Z.div_add by lia. rewrite (Z.div_small (kb * 2 ^ 8 + ka)) by lia.
    apply Z.mod_unique with kr; lia. }
  congruence.
Qed.

(** C7. For a string of eight hexadecimal digits, parsing it, formatting
    the four channels back to eight digits and parsing again gives the
    channels of the first parse; the eight digits it is formatted to denote
    the number the string denotes. *)
Theorem color_roundtrip (s : string) :
  is_hex s = true -> String.length s = 8%nat ->
  allocColorImage (format_hex8 (C (allocColorImage s))) = allocColorImage s /\
  is_hex (format_hex8 (C (allocColorImage s))) = true /\
  String.length (format_hex8 (C (allocColorImage s))) = 8%nat /\
  hex_value (format_hex8 (C (allocColorImage s))) = hex_value s.
Proof.
  intros Hh Hl.
  pose proof (allocColorImage_parts s) as Hp. cbv zeta in Hp.
  pose proof (Sscanf_x_range s) as Hc.
  destruct Hp as (pR & pG & pB & pA).
  assert (HR : 0 <= color.R (C (allocColorImage s)) < 256)
    by (rewrite pR; split; [apply Z.div_pos|apply Z.div_lt_upper_bound]; lia).
  assert (HG : 0 <= color.G (C (allocColorImage s)) < 256)
    by (rewrite pG; apply Z.mod_pos_bound; lia).
  assert (HB : 0 <= color.B (C (allocColorImage s)) < 256)
    by (rewrite pB; apply Z.mod_pos_bound; lia).
  assert (HA : 0 <= color.A (C (allocColorImage s)) < 256)
    by (rewrite pA; apply Z.mod_pos_bound; lia).
  assert (Hrt : allocColorImage (format_hex8 (C (allocColorImage s)))
                = allocColorImage s).
  { rewrite allocColorImage_format by assumption.
    now destruct (allocColorImage s). }
  assert (Hfh : is_hex (format_hex8 (C (allocColorImage s))) = true).
  { unfold format_hex8. rewrite !is_hex_app.
    destruct (format_channel_hex _ HR) as [-> _].
    destruct (format_channel_hex _ HG) as [-> _].
    destruct (format_channel_hex _ HB) as [-> _].
    destruct (format_channel_hex _ HA) as [-> _]. reflexivity. }
  repeat split; try assumption; try reflexivity.
  rewrite <- (Sscanf_x_hex _ 0) by (assumption || (simpl; lia)).
  rewrite <- (Sscanf_x_hex s 0) by (assumption || lia).
  rewrite (allocColorImage_sum (format_hex8 (C (allocColorImage s)))).
  rewrite (allocColorImage_sum s). cbv zeta. rewrite Hrt. reflexivity.
Qed.

Lemma color_roundtrip_witness :
  allocColorImage (format_hex8 (C (allocColorImage "0a0B0cFf")))
  = allocColorImage "0a0B0cFf" /\
  is_hex (format_hex8 (C (allocColorImage "0a0B0cFf"))) = true /\
  String.length (format_hex8 (C (allocColorImage "0a0B0cFf"))) = 8%nat /\
  hex_value (format_hex8 (C (allocColorImage "0a0B0cFf")))
  = hex_value "0a0B0cFf".
Proof. apply (color_roundtrip "0a0B0cFf"); reflexivity. Defined.

(** ** The run of the program *)

Section EmitsOnly.

Variable P : event -> bool.

Lemma emits_only_ret {T} (v : T) : emits_only P (ret v).
Proof. intros tr H. exact H. Qed.

Lemma emits_only_os_Exit {T} (code : Z) : emits_only P (@os_Exit T code).
Proof. intros tr H. exact H. Qed.

Lemma emits_only_panic {T} : emits_only P (@panic T).
Proof. intros tr H. exact H. Qed.

Lemma emits_only_emit (e : event) : P e = true -> emits_only P (emit e).
Proof.
  intros He tr H. unfold emit. cbn [fst].
  rewrite forallb_app, H. simpl. now rewrite He.
Qed.

Lemma emits_only_bind {T U} (m : M T) (k : T -> M U) :
  emits_only P m -> (forall v, emits_only P (k v)) ->
  emits_only P (bind m k).
Proof.
  intros Hm Hk tr H. unfold bind. specialize (Hm tr H).
  destruct (m tr) as [tr' [v|st]]; cbn [fst] in *.
  - now apply Hk.
  - exact Hm.
Qed.

Lemma emits_only_log_Fatal {T} (e : error) :
  P (Stderr e) = true -> emits_only P (@log_Fatal T e).
Proof.
  intros He. apply emits_only_bind.
  - now apply emits_only_emit.
  - intros _. apply emits_only_os_Exit.
Qed.

Lemma emits_only_usage {T} :
  P PrintUsage = true -> emits_only P (@usage T).
Proof.
  intros He. apply emits_only_bind.
  - now apply emits_only_emit.
  - intros _. apply emits_only_os_Exit.
Qed.

(** What follows [usage] does not run. *)
Lemma emits_only_after_usage {T U} (k : T -> M U) :
  P PrintUsage = true -> emits_only P (bind usage k).
Proof.
  intros He tr H. unfold bind, usage, bind, emit, os_Exit. cbn [fst].
  rewrite forallb_app, H. simpl. now rewrite He.
Qed.

Lemma emits_only_exec (m : M unit) :
  emits_only P m -> forallb P (trace (exec m)) = true.
Proof.
  intros Hm. unfold exec. specialize (Hm [] eq_refl).
  destruct (m []) as [tr [v|st]]; exact Hm.
Qed.

End EmitsOnly.

(** One step through the body of [main]: a sequence, a branch, or a
    computation that ends at once. *)
Ltac emits_step :=
  match goal with
  | |- emits_only _ (bind usage _) => apply emits_only_after_usage; reflexivity
  | |- emits_only _ (bind _ _) => apply emits_only_bind; [|intros ?]
  | |- emits_only _ (ret _) => apply emits_only_ret
  | |- emits_only _ panic => apply emits_only_panic
  | |- emits_only _ usage => apply emits_only_usage; reflexivity
  | |- emits_only _ (log_Fatal _) => apply emits_only_log_Fatal; reflexivity
  | |- emits_only _ (emit _) => apply emits_only_emit; reflexivity
  | |- emits_only _ (if ?b then _ else _) => destruct b eqn:?
  | |- emits_only _ (match ?x with _ => _ end) => destruct x eqn:?
  end.

(** In report mode no event of the run touches a file or a canvas. *)
Lemma main_report_console (W : World) (fl : Flags) :
  report fl = true -> forallb console (trace (main W fl)) = true.
Proof.
  intros Hr. unfold main. apply emits_only_exec.
  repeat (emits_step; try congruence).
Qed.

Lemma textRect_invalid (dst src : Image) (pos : string) :
  valid_anchor pos = false -> textRect dst src pos = None.
Proof.
  unfold valid_anchor, textRect. cbn [existsb].
  repeat match goal with
         | |- context [String.eqb pos ?s] => destruct (String.eqb pos s)
         end; simpl; congruence.
Qed.

(** With an anchor that is none of the nine the run writes no file. *)
Lemma main_invalid_no_file (W : World) (fl : Flags) :
  valid_anchor (anchor fl) = false ->
  forallb no_write (trace (main W fl)) = true.
Proof.
  intros Ha. unfold main. apply emits_only_exec.
  assert (Ht : forall a b, textRect a b (anchor fl) = None)
    by (intros; now apply textRect_invalid).
  unfold canvas.
  repeat (rewrite ?Ht; emits_step; try congruence).
Qed.

(** In report mode the run that gets past font loading, text reading and
    rendering prints the bounds and ends. *)
Lemma main_report (W : World) (fl : Flags) (f : freetype.Font)
  (lines : list string) (img : Image) :
  report fl = true ->
  loaded_font W fl = Ok f ->
  textToRender W fl = (lines, None) ->
  render W fl (globals fl f) lines = Ok img ->
  main W fl
  = mkRun [Stdout (fmt.itoa (Dx (Bounds img)) ++ "x"
                   ++ fmt.itoa (Dy (Bounds img)))%string] (Exit 0).
Proof.
  intros Hr Hf Ht Hre. unfold loaded_font in Hf. unfold globals in Hre.
  unfold main, exec, bind, ret, emit, usage, log_Fatal, os_Exit, panic.
  rewrite Hr, Ht, andb_false_r.
  destruct (fontFile fl =? "")%string.
  - rewrite Hf, Hre. reflexivity.
  - destruct (os_ReadFile W (fontFile fl)); try discriminate.
    rewrite Hf, Hre. reflexivity.
Qed.

(** Out of report mode, the run that gets as far as the placement with an
    anchor that is none of the nine prints the usage and exits with
    status 2. *)
Lemma main_invalid_usage (W : World) (fl : Flags) (f : freetype.Font)
  (lines : list string) (img cimg : Image) (tr : list event) :
  valid_anchor (anchor fl) = false ->
  report fl = false ->
  loaded_font W fl = Ok f ->
  textToRender W fl = (lines, None) ->
  render W fl (globals fl f) lines = Ok img ->
  canvas W (globals fl f) (inFile fl) (Bounds img) [] = (tr, inl (Ok cimg)) ->
  exists tr', main W fl = mkRun (tr' ++ [PrintUsage]) (Exit 2).
Proof.
  intros Ha Hr Hf Ht Hre Hc. unfold loaded_font in Hf. unfold globals in *.
  unfold main, exec, bind, ret, emit, usage, log_Fatal, os_Exit, panic.
  rewrite Hr, Ht, andb_true_r.
  destruct (outFile fl =? "")%string.
  - exists []. reflexivity.
  - exists tr.
    destruct (fontFile fl =? "")%string.
    + rewrite Hf, Hre, Hc, textRect_invalid by assumption. reflexivity.
    + destruct (os_ReadFile W (fontFile fl)); try discriminate.
      rewrite Hf, Hre, Hc, textRect_invalid by assumption. reflexivity.
Qed.

(** The pen of [render] when nothing wraps: it stays at the left margin,
    goes down by [v] a line, and [bnds] keeps the largest abscissa the
    rasterizer returned and the ordinate of the last line. *)
Lemma draw_lines_pen (W : World) (ctx : freetype.Context) (v : Z)
  (lines : list string) :
  forall p b p' b',
    draw_lines W ctx v lines p b = Ok (p', b') ->
    (forall c line q q1,
        In line lines -> fixed.X q = 1024 ->
        DrawString W c line q = Ok q1 -> fixed.X q1 + 1087 < 2 ^ 31) ->
    fixed.X p = 1024 -> 0 <= v -> - 2 ^ 31 <= fixed.Y p ->
    fixed.Y p + Z.of_nat (List.length lines) * v < 2 ^ 31 ->
    0 <= fixed.X b -> fixed.X b + 1087 < 2 ^ 31 ->
    0 <= fixed.X b' /\ fixed.X b' + 1087 < 2 ^ 31 /\
    ((lines = [] /\ fixed.Y b' = fixed.Y b) \/
     (lines <> [] /\
      fixed.Y b' = fixed.Y p + Z.of_nat (List.length lines) * v)).
Proof.
  induction lines as [|line rest IH]; intros p b p' b' Hd Hpen Hx Hv Hy0 Hy Hb0 Hb.
  - simpl in Hd. inversion Hd; subst. auto.
  - cbn [draw_lines] in Hd. cbn [List.length] in Hy.
    rewrite Nat2Z.inj_succ in Hy.
    assert (Hrest : 0 <= Z.of_nat (List.length rest) * v)
      by (apply Z.mul_nonneg_nonneg; lia).
    assert (Hstep : GoInt.int32 (fixed.Y p + v) = fixed.Y p + v)
      by (apply int32_small; lia).
    rewrite Hstep in Hd.
    destruct (DrawString W ctx line (fixed.P26_6 (fixed.X p) (fixed.Y p + v)))
      as [q1|e|] eqn:Hq; try discriminate.
    assert (Hq1 : fixed.X q1 + 1087 < 2 ^ 31).
    { eapply (Hpen ctx line); [left; reflexivity| |exact Hq]. exact Hx. }
    apply IH in Hd; cbn [fixed.X fixed.Y]; try assumption; try lia.
    + destruct Hd as (H1 & H2 & H3). split; [exact H1|]. split; [exact H2|].
      right. split; [discriminate|]. cbn [List.length].
      rewrite Nat2Z.inj_succ.
      destruct H3 as [[Hnil H3]|[_ H3]].
      * subst rest. cbn [fixed.Y] in H3. cbn [List.length]. lia.
      * cbn [fixed.Y] in H3. lia.
    + intros c l q q2 Hin. apply Hpen. now right.
    + destruct (Z.gtb_spec (fixed.X q1) (fixed.X b)); cbn [fixed.X]; lia.
    + destruct (Z.gtb_spec (fixed.X q1) (fixed.X b)); cbn [fixed.X]; lia.
Qed.

(** With moderate sizes the image that [render] returns is not empty. *)
Lemma render_positive (W : World) (fl : Flags) (g : Globals)
  (lines : list string) (img : Image) :
  render W fl g lines = Ok img ->
  moderate W fl g lines ->
  0 < Dx (Bounds img) /\ 0 < Dy (Bounds img).
Proof.
  unfold render, moderate. fold (configured fl g). cbv zeta.
  set (ctx := configured fl g).
  set (v := PointToFixed W _ (fontSize fl + 2)%float).
  intros Hre (Hpo & Hv & Hw & Hh & Hy & Hpen).
  pose proof (maxBytes_nonneg lines) as Hm.
  assert (Hvs : 0 <= Z.of_nat (List.length lines) * vs W fl ctx).
  { destruct lines as [|l ls]; [simpl; lia|].
    apply Z.mul_nonneg_nonneg; [lia|].
    unfold vs. fold v. cbn [List.length] in Hy.
    rewrite Nat2Z.inj_succ in Hy.
    assert (0 <= Z.of_nat (List.length ls) * v)
      by (apply Z.mul_nonneg_nonneg; lia).
    rewrite Ceil_small by lia. apply Z.div_pos; lia. }
  assert (Hmw : 0 <= maxBytes lines * po W fl ctx)
    by (apply Z.mul_nonneg_nonneg; lia).
  rewrite bounds_exact in Hre by lia.
  match type of Hre with
  | context [NewRGBA ?r] => destruct (NewRGBA r) as [big|] eqn:Hn
  end; [|discriminate].
  apply NewRGBA_Some in Hn. destruct Hn as (Hbig & _ & _).
  change (PointToFixed W
            (freetype.SetDst (freetype.SetClip ctx (Bounds big)) big)
            (fontSize fl + 2)%float) with v in Hre.
  match type of Hre with
  | context [draw_lines ?w ?c ?a ?l ?p ?b] =>
      destruct (draw_lines w c a l p b) as [[p' b']|e|] eqn:Hd
  end; try discriminate.
  apply draw_lines_pen in Hd; try assumption;
    try (change (fixed.X (freetype.Pt 16 16)) with 1024);
    try (change (fixed.Y (freetype.Pt 16 16)) with 1024);
    try (change (fixed.X (freetype.Pt 0 0)) with 0);
    try (change (fixed.Y (freetype.Pt 0 0)) with 0);
    try lia.
  destruct Hd as (Hb0 & Hb1 & Hby).
  change (fixed.X (freetype.Pt 16 16)) with 1024 in Hre.
  change (fixed.Y (freetype.Pt 16 16)) with 1024 in Hre.
  change (fixed.Y (freetype.Pt 0 0)) with 0 in Hby.
  change (fixed.Y (freetype.Pt 16 16)) with 1024 in Hby.
  assert (Hyb : 0 <= fixed.Y b' /\ fixed.Y b' + 1087 < 2 ^ 31).
  { assert (0 <= Z.of_nat (List.length lines) * v)
      by (apply Z.mul_nonneg_nonneg; lia).
    destruct Hby as [[_ Hby]|[_ Hby]]; lia. }
  rewrite (int32_small (fixed.X b' + 1024)) in Hre by lia.
  rewrite (int32_small (fixed.Y b' + 1024)) in Hre by lia.
  rewrite !Ceil_small in Hre by lia.
  assert (Hcx : 16 <= (fixed.X b' + 1024 + 63) / 64 < 2 ^ 25).
  { split; [apply Z.div_le_lower_bound|apply Z.div_lt_upper_bound]; lia. }
  assert (Hcy : 16 <= (fixed.Y b' + 1024 + 63) / 64 < 2 ^ 25).
  { split; [apply Z.div_le_lower_bound|apply Z.div_lt_upper_bound]; lia. }
  inversion Hre; subst img. clear Hre.
  rewrite SubImage_Intersect, Hbig. cbn [Bounds].
  rewrite Rect_ordered by lia.
  set (cx := (fixed.X b' + 1024 + 63) / 64) in *.
  set (cy := (fixed.Y b' + 1024 + 63) / 64) in *.
  set (dx := maxBytes lines * po W fl ctx + 4 * po W fl ctx) in *.
  set (dy := Z.of_nat (List.length lines) * vs W fl ctx + 4 * po W fl ctx) in *.
  unfold Intersect, Empty, Dx, Dy, GoInt.sub. cbn [X Y Min Max].
  rewrite Z.ltb_irrefl.
  destruct (Z.gtb_spec cx dx); destruct (Z.gtb_spec cy dy);
    cbn [X Y Min Max];
    repeat match goal with
      | |- context [Z.geb 0 ?a] =>
          let Hg := fresh in
          destruct (Z.geb 0 a) eqn:Hg;
          [rewrite Z.geb_leb in Hg; apply Z.leb_le in Hg; lia|]
      end;
    cbn [orb X Y Min Max]; rewrite !int_small by lia; lia.
Qed.

(** The image that [render] returns has no negative width or height. *)
Lemma render_nonneg (W : World) (fl : Flags) (g : Globals)
  (lines : list string) (img : Image) :
  render W fl g lines = Ok img ->
  0 <= Dx (Bounds img) /\ 0 <= Dy (Bounds img).
Proof.
  unfold render. fold (configured fl g). cbv zeta.
  destruct (NewRGBA (bounds W fl (configured fl g) lines)) as [big|] eqn:Hn;
    [|discriminate].
  match goal with
  | |- context [draw_lines ?w ?c ?v ?l ?p ?b] =>
      destruct (draw_lines w c v l p b) as [[p' b']|e|]
  end; try discriminate.
  intros H. inversion H; subst.
  apply (SubImage_nonneg (bounds W fl (configured fl g) lines));
    [apply bounds_int_rect|assumption].
Qed.

(** C8, as stated, fails: in report mode at a font size of 0 points, with
    nothing to read on standard input, the estimate is empty and the run
    prints [0x0], two integers that are not positive. *)
Lemma report_mode_prints_zero :
  main silent_world (with_size (with_report (default_flags "")) 0 96)
  = mkRun [Stdout "0x0"] (Exit 0).
Proof. vm_compute. reflexivity. Qed.

(** C8, amended.  In report mode the run touches no file and no canvas,
    whatever happens; and when the font loads, the text is read and the
    rendering succeeds, all it does is print the bounds of the rendered
    text as [<width>x<height>] on standard output, two integers that are
    never negative, and that are positive when the sizes are moderate. *)
Theorem report_mode_prints_bounds (W : World) (fl : Flags) :
  report fl = true ->
  forallb console (trace (main W fl)) = true /\
  (forall f lines img,
      loaded_font W fl = Ok f ->
      textToRender W fl = (lines, None) ->
      render W fl (globals fl f) lines = Ok img ->
      main W fl
      = mkRun [Stdout (fmt.itoa (Dx (Bounds img)) ++ "x"
                       ++ fmt.itoa (Dy (Bounds img)))%string] (Exit 0) /\
      0 <= Dx (Bounds img) /\ 0 <= Dy (Bounds img) /\
      (moderate W fl (globals fl f) lines ->
       0 < Dx (Bounds img) /\ 0 < Dy (Bounds img))).
Proof.
  intros Hr. split.
  - now apply main_report_console.
  - intros f lines img Hf Ht Hre.
    destruct (render_nonneg W fl (globals fl f) lines img Hre) as [Hx Hy].
    split; [|split; [exact Hx|split; [exact Hy|]]].
    + apply (main_report W fl f lines img); assumption.
    + intros Hm. apply (render_positive W fl (globals fl f) lines img);
        assumption.
Qed.

Lemma report_mode_prints_bounds_witness :
  main sample_world (with_report (default_flags ""))
  = mkRun [Stdout "77x84"] (Exit 0) /\
  0 < Dx (mkRectangle (Pt 0 0) (Pt 77 84)) /\
  0 < Dy (mkRectangle (Pt 0 0) (Pt 77 84)).
Proof.
  destruct (report_mode_prints_bounds sample_world
              (with_report (default_flags "")) eq_refl) as [_ H].
  destruct (H sample_font ["one"; "two"; "three"]
              (mkImage (mkRectangle (Pt 0 0) (Pt 77 84))))
    as (Hrun & _ & _ & Hpos).
  - reflexivity.
  - reflexivity.
  - vm_compute. reflexivity.
  - split; [exact Hrun|]. apply Hpos.
    unfold moderate. cbv zeta.
    do 5 (split; [vm_compute; congruence|]).
    intros c line p p1 Hin Hx Hd.
    cbn [sample_world DrawString] in Hd. inversion Hd; subst p1.
    cbn [fixed.X]. rewrite Hx.
    destruct Hin as [<-|[<-|[<-|[]]]]; vm_compute; reflexivity.
Defined.

(** C9, as stated, fails: in report mode the anchor [zz] goes unnoticed,
    the run prints the bounds and ends with status 0. *)
Lemma invalid_anchor_report_mode :
  valid_anchor "zz" = false /\
  main sample_world (with_report (with_anchor (default_flags "out.png") "zz"))
  = mkRun [Stdout "77x84"] (Exit 0).
Proof. split; vm_compute; reflexivity. Qed.

(** C9, amended.  With an anchor that is none of the nine the run writes no
    output file, in any mode; and out of report mode, when the font loads,
    the text is read, the rendering succeeds and the canvas is obtained,
    the run prints the usage text and exits with status 2. *)
Theorem invalid_anchor_usage (W : World) (fl : Flags) :
  valid_anchor (anchor fl) = false ->
  forallb no_write (trace (main W fl)) = true /\
  (report fl = false ->
   forall f lines img cimg tr,
     loaded_font W fl = Ok f ->
     textToRender W fl = (lines, None) ->
     render W fl (globals fl f) lines = Ok img ->
     canvas W (globals fl f) (inFile fl) (Bounds img) [] = (tr, inl (Ok cimg)) ->
     exists tr', main W fl = mkRun (tr' ++ [PrintUsage]) (Exit 2)).
Proof.
  intros Ha. split.
  - now apply main_invalid_no_file.
  - intros Hr f lines img cimg tr Hf Ht Hre Hc.
    apply (main_invalid_usage W fl f lines img cimg tr); assumption.
Qed.

Lemma invalid_anchor_usage_witness :
  forallb no_write
    (trace (main sample_world (with_anchor (default_flags "out.png") "zz")))
  = true /\
  exists tr',
    main sample_world (with_anchor (default_flags "out.png") "zz")
    = mkRun (tr' ++ [PrintUsage]) (Exit 2).
Proof.
  destruct (invalid_anchor_usage sample_world
              (with_anchor (default_flags "out.png") "zz") eq_refl)
    as [Hno Hus].
  split; [exact Hno|].
  apply (Hus eq_refl sample_font ["one"; "two"; "three"]
           (mkImage (mkRectangle (Pt 0 0) (Pt 77 84)))
           (mkImage (mkRectangle (Pt 0 0) (Pt 77 84)))
           [Fill (mkRectangle (Pt 0 0) (Pt 77 84))
              (allocColorImage "ffffe0ff")]);
    vm_compute; reflexivity.
Defined.

(** ** More on the Placement Calculator *)

(** What [textRect] returns on any canvas, with the coordinates far from the
    limits of [int]: the slack is taken from the far corner of the
    canvas. *)
Lemma textRect_far_corner (dst src : Image) (pos : string) :
  rect_ok (Bounds dst) -> rect_ok (Bounds src) ->
  textRect dst src pos
  = match anchor_offset (X (Max (Bounds dst)) - width (Bounds src))
            (Y (Max (Bounds dst)) - height (Bounds src)) pos with
    | None => None
    | Some (px, py) =>
        let x := X (Min (Bounds dst)) + px in
        let y := Y (Min (Bounds dst)) + py in
        Some (mkRectangle (Pt x y)
                (Pt (x + width (Bounds src)) (y + height (Bounds src))))
    end.
Proof.
  intros Hd Hs.
  destruct (Dx_width _ Hs) as [Hw Hw0]. destruct (Dy_height _ Hs) as [Hh Hh0].
  unfold textRect, anchor_offset. rewrite Hw, Hh.
  set (ox := X (Max (Bounds dst)) - width (Bounds src)).
  set (oy := Y (Max (Bounds dst)) - height (Bounds src)).
  set (mx := X (Min (Bounds dst))). set (my := Y (Min (Bounds dst))).
  assert (Hm : - 2 ^ 60 <= mx < 2 ^ 60 /\ - 2 ^ 60 <= my < 2 ^ 60)
    by (unfold mx, my; unfold rect_ok, coord_ok in Hd; lia).
  assert (Hox : - 2 ^ 62 < ox <= 2 ^ 60 /\ - 2 ^ 62 < oy <= 2 ^ 60).
  { unfold ox, oy, width, height. unfold rect_ok, coord_ok in Hd, Hs. lia. }
  assert (Hwb : width (Bounds src) < 2 ^ 61 /\ height (Bounds src) < 2 ^ 61).
  { unfold width, height. unfold rect_ok, coord_ok in Hs. lia. }
  assert (Hqx : - 2 ^ 62 < Z.quot ox 2 <= 2 ^ 60).
  { pose proof (Z.quot_rem' ox 2) as Hq.
    pose proof (Z.rem_bound_abs ox 2 ltac:(lia)) as Hr.
    destruct (Z_le_gt_dec 0 ox).
    - pose proof (Z.rem_nonneg ox 2 ltac:(lia) ltac:(lia)). lia.
    - pose proof (Z.rem_nonpos ox 2 ltac:(lia) ltac:(lia)). lia. }
  assert (Hqy : - 2 ^ 62 < Z.quot oy 2 <= 2 ^ 60).
  { pose proof (Z.quot_rem' oy 2) as Hq.
    pose proof (Z.rem_bound_abs oy 2 ltac:(lia)) as Hr.
    destruct (Z_le_gt_dec 0 oy).
    - pose proof (Z.rem_nonneg oy 2 ltac:(lia) ltac:(lia)). lia.
    - pose proof (Z.rem_nonpos oy 2 ltac:(lia) ltac:(lia)). lia. }
  unfold GoInt.sub. fold ox oy.
  rewrite (int_small ox), (int_small oy) by lia.
  assert (Hdx : GoInt.div ox 2 = Z.quot ox 2)
    by (unfold GoInt.div; apply int_small; lia).
  assert (Hdy : GoInt.div oy 2 = Z.quot oy 2)
    by (unfold GoInt.div; apply int_small; lia).
  rewrite Hdx, Hdy.
  assert (Hplace : forall px py,
             - 2 ^ 62 < px <= 2 ^ 60 -> - 2 ^ 62 < py <= 2 ^ 60 ->
             (let ap := Add (Min (Bounds dst)) (Pt px py) in
              Some (Rect (X ap) (Y ap)
                      (GoInt.add (X ap) (width (Bounds src)))
                      (GoInt.add (Y ap) (height (Bounds src)))))
             = Some (mkRectangle (Pt (mx + px) (my + py))
                       (Pt (mx + px + width (Bounds src))
                           (my + py + height (Bounds src))))).
  { intros px py Hpx Hpy. cbv zeta. unfold Add, GoInt.add. cbn [X Y].
    fold mx my.
    rewrite (int_small (mx + px)), (int_small (my + py)) by lia.
    rewrite !int_small by lia.
    rewrite Rect_ordered by lia. reflexivity. }
  clearbody ox oy.
  generalize dependent (Z.quot ox 2). generalize dependent (Z.quot oy 2).
  intros qy Hqy Hdy qx Hqx Hdx.
  repeat match goal with
         | |- context [String.eqb pos ?s] => destruct (String.eqb pos s)
         end;
    try reflexivity; apply Hplace; lia.
Qed.

Lemma anchor_offset_valid (ox oy : Z) (pos : string) :
  valid_anchor pos = true ->
  exists px py, anchor_offset ox oy pos = Some (px, py) /\
    (px = 0 \/ px = Z.quot ox 2 \/ px = ox) /\
    (py = 0 \/ py = Z.quot oy 2 \/ py = oy).
Proof.
  unfold valid_anchor, anchor_offset. cbn [existsb].
  repeat match goal with
         | |- context [String.eqb pos ?s] => destruct (String.eqb pos s)
         end; simpl; try discriminate; intros _;
    eexists; eexists; (split; [reflexivity|]); auto.
Qed.

Lemma textRect_None_invalid (dst src : Image) (pos : string) :
  textRect dst src pos = None -> valid_anchor pos = false.
Proof.
  unfold valid_anchor, textRect. cbn [existsb].
  repeat match goal with
         | |- context [String.eqb pos ?s] => destruct (String.eqb pos s)
         end; simpl; congruence.
Qed.





(** X1. Whatever the canvas and whichever of the nine anchors, the
    rectangle [textRect] returns has the width and the height of the text
    image. *)
Theorem textRect_keeps_size (dst src : Image) (pos : string) :
  rect_ok (Bounds dst) -> rect_ok (Bounds src) ->
  valid_anchor pos = true ->
  exists r, textRect dst src pos = Some r /\
            Dx r = Dx (Bounds src) /\ Dy r = Dy (Bounds src) /\
            X (Min r) <= X (Max r) /\ Y (Min r) <= Y (Max r).
Proof.
  intros Hd Hs Hv. rewrite textRect_far_corner by assumption.
  destruct (anchor_offset_valid
              (X (Max (Bounds dst)) - width (Bounds src))
              (Y (Max (Bounds dst)) - height (Bounds src)) pos Hv)
    as (px & py & -> & _ & _).
  eexists. split; [reflexivity|].
  destruct (Dx_width _ Hs) as [Hw Hw0]. destruct (Dy_height _ Hs) as [Hh Hh0].
  rewrite Hw, Hh. unfold Dx, Dy, GoInt.sub. cbn [X Y Min Max].
  assert (Hwb : width (Bounds src) < 2 ^ 61 /\ height (Bounds src) < 2 ^ 61).
  { unfold width, height. unfold rect_ok, coord_ok in Hs. lia. }
  repeat split; try lia.
  - replace (X (Min (Bounds dst)) + px + width (Bounds src)
             - (X (Min (Bounds dst)) + px)) with (width (Bounds src)) by lia.
    apply int_small; lia.
  - replace (Y (Min (Bounds dst)) + py + height (Bounds src)
             - (Y (Min (Bounds dst)) + py)) with (height (Bounds src)) by lia.
    apply int_small; lia.
Qed.

Lemma textRect_keeps_size_witness :
  exists r, textRect offset_canvas small_text "c" = Some r /\
            Dx r = Dx (Bounds small_text) /\ Dy r = Dy (Bounds small_text) /\
            X (Min r) <= X (Max r) /\ Y (Min r) <= Y (Max r).
Proof.
  apply (textRect_keeps_size offset_canvas small_text "c");
    try reflexivity; vm_compute; intuition congruence.
Defined.

Lemma quot2_nonneg (z : Z) : 0 <= z -> 0 <= Z.quot z 2 <= z.
Proof.
  intros Hz. pose proof (Z.quot_rem' z 2) as Hq.
  pose proof (Z.rem_bound_pos z 2 Hz ltac:(lia)) as Hr. lia.
Qed.

(** A text that fits a canvas at the origin is placed within it. *)
Lemma textRect_fits_inside (dst src : Image) (pos : string) :
  rect_ok (Bounds dst) -> rect_ok (Bounds src) ->
  Min (Bounds dst) = Pt 0 0 ->
  width (Bounds src) <= width (Bounds dst) ->
  height (Bounds src) <= height (Bounds dst) ->
  valid_anchor pos = true ->
  exists r, textRect dst src pos = Some r /\ inside r (Bounds dst).
Proof.
  intros Hd Hs H0 Hfw Hfh Hv. rewrite textRect_far_corner by assumption.
  assert (Hcw : width (Bounds dst) = X (Max (Bounds dst)))
    by (unfold width; rewrite H0; simpl; lia).
  assert (Hch : height (Bounds dst) = Y (Max (Bounds dst)))
    by (unfold height; rewrite H0; simpl; lia).
  set (ox := X (Max (Bounds dst)) - width (Bounds src)).
  set (oy := Y (Max (Bounds dst)) - height (Bounds src)).
  assert (Hox : 0 <= ox) by (unfold ox; lia).
  assert (Hoy : 0 <= oy) by (unfold oy; lia).
  pose proof (quot2_nonneg ox Hox) as Hqx.
  pose proof (quot2_nonneg oy Hoy) as Hqy.
  destruct (anchor_offset_valid ox oy pos Hv) as (px & py & -> & Hpx & Hpy).
  eexists. split; [reflexivity|].
  unfold inside. rewrite H0. cbn [X Y Min Max].
  destruct (Dx_width _ Hs) as [_ Hw0]. destruct (Dy_height _ Hs) as [_ Hh0].
  unfold ox, oy in *. lia.
Qed.

(** X2. On a canvas that starts at the origin, a text that fits is placed
    within the canvas, whichever of the nine anchors is used. *)
Theorem textRect_inside_canvas (dst src : Image) (pos : string) :
  rect_ok (Bounds dst) -> rect_ok (Bounds src) ->
  Min (Bounds dst) = Pt 0 0 ->
  width (Bounds src) <= width (Bounds dst) ->
  height (Bounds src) <= height (Bounds dst) ->
  valid_anchor pos = true ->
  exists r, textRect dst src pos = Some r /\ inside r (Bounds dst).
Proof. exact (textRect_fits_inside dst src pos). Qed.

Lemma textRect_inside_canvas_witness :
  exists r, textRect (mkImage (Rect 0 0 200 100)) small_text "bc" = Some r /\
            inside r (Bounds (mkImage (Rect 0 0 200 100))).
Proof.
  apply (textRect_inside_canvas (mkImage (Rect 0 0 200 100)) small_text "bc");
    try reflexivity; vm_compute; intuition congruence.
Defined.

(** X3. With the anchor [c] on a canvas that starts at the origin, the
    margins left and right of the text differ by at most one pixel, and so
    do those above and below; the division by two truncates toward zero, so
    when the text fits the odd pixel goes to the right and to the bottom. *)
Theorem textRect_centred (dst src : Image) :
  rect_ok (Bounds dst) -> rect_ok (Bounds src) ->
  Min (Bounds dst) = Pt 0 0 ->
  exists r, textRect dst src "c" = Some r /\
    let left := X (Min r) in
    let right := X (Max (Bounds dst)) - X (Max r) in
    let top := Y (Min r) in
    let bottom := Y (Max (Bounds dst)) - Y (Max r) in
    Z.abs (right - left) <= 1 /\ Z.abs (bottom - top) <= 1 /\
    (width (Bounds src) <= width (Bounds dst) -> 0 <= left <= right) /\
    (height (Bounds src) <= height (Bounds dst) -> 0 <= top <= bottom).
Proof.
  intros Hd Hs H0. rewrite textRect_far_corner by assumption.
  unfold anchor_offset. cbn [String.eqb Ascii.eqb Bool.eqb]. cbv iota.
  eexists. split; [reflexivity|]. cbv zeta. rewrite H0. cbn [X Y Min Max].
  assert (Hcw : width (Bounds dst) = X (Max (Bounds dst)))
    by (unfold width; rewrite H0; simpl; lia).
  assert (Hch : height (Bounds dst) = Y (Max (Bounds dst)))
    by (unfold height; rewrite H0; simpl; lia).
  rewrite Hcw, Hch.
  set (ox := X (Max (Bounds dst)) - width (Bounds src)).
  set (oy := Y (Max (Bounds dst)) - height (Bounds src)).
  pose proof (Z.quot_rem' ox 2) as Hqx.
  pose proof (Z.rem_bound_abs ox 2 ltac:(lia)) as Hrx.
  pose proof (Z.quot_rem' oy 2) as Hqy.
  pose proof (Z.rem_bound_abs oy 2 ltac:(lia)) as Hry.
  split; [lia|]. split; [lia|]. split; intros Hf.
  - assert (Hox : 0 <= ox) by (unfold ox; lia).
    pose proof (quot2_nonneg ox Hox).
    pose proof (Z.rem_bound_pos ox 2 Hox ltac:(lia)). unfold ox in *. lia.
  - assert (Hoy : 0 <= oy) by (unfold oy; lia).
    pose proof (quot2_nonneg oy Hoy).
    pose proof (Z.rem_bound_pos oy 2 Hoy ltac:(lia)). unfold oy in *. lia.
Qed.

Lemma textRect_centred_witness :
  exists r, textRect (mkImage (Rect 0 0 200 101)) small_text "c" = Some r /\
    let left := X (Min r) in
    let right := X (Max (Bounds (mkImage (Rect 0 0 200 101)))) - X (Max r) in
    let top := Y (Min r) in
    let bottom := Y (Max (Bounds (mkImage (Rect 0 0 200 101)))) - Y (Max r) in
    Z.abs (right - left) <= 1 /\ Z.abs (bottom - top) <= 1 /\
    (width (Bounds small_text) <= width (Bounds (mkImage (Rect 0 0 200 101)))
     -> 0 <= left <= right) /\
    (height (Bounds small_text) <= height (Bounds (mkImage (Rect 0 0 200 101)))
     -> 0 <= top <= bottom).
Proof.
  apply (textRect_centred (mkImage (Rect 0 0 200 101)) small_text);
    try reflexivity; vm_compute; intuition congruence.
Defined.

(** ** More on the Text Renderer *)

Lemma Intersect_at_origin (cx cy dx dy : Z) :
  0 <= dx -> 0 <= dy ->
  let r := Intersect (Rect 0 0 cx cy) (mkRectangle (Pt 0 0) (Pt dx dy)) in
  Min r = Pt 0 0 /\
  0 <= X (Max r) <= dx /\ 0 <= Y (Max r) <= dy.
Proof.
  intros Hdx Hdy. unfold Intersect, Rect, Empty.
  destruct (Z.gtb_spec 0 cx); destruct (Z.gtb_spec 0 cy); cbn [X Y Min Max];
    repeat match goal with
      | |- context [Z.ltb ?a ?b] => destruct (Z.ltb_spec a b)
      | |- context [Z.gtb ?a ?b] => destruct (Z.gtb_spec a b)
      end; cbn [X Y Min Max];
    repeat match goal with
      | |- context [Z.geb ?a ?b] =>
          let Hg := fresh in
          destruct (Z.geb a b) eqn:Hg;
          [|rewrite Z.geb_leb in Hg; apply Z.leb_gt in Hg]
      end; cbn [orb X Y Min Max ZR];
    repeat split; try reflexivity; try lia; f_equal; lia.
Qed.

(** The image of [render] within a plain estimate. *)
Lemma render_at_origin (W : World) (fl : Flags) (g : Globals)
  (lines : list string) (img : Image) :
  render W fl g lines = Ok img ->
  plain_estimate W fl (configured fl g) lines ->
  Min (Bounds img) = Pt 0 0 /\
  0 <= X (Max (Bounds img)) <= X (Max (bounds W fl (configured fl g) lines)) /\
  0 <= Y (Max (Bounds img)) <= Y (Max (bounds W fl (configured fl g) lines)) /\
  Dx (Bounds img) = X (Max (Bounds img)) /\
  Dy (Bounds img) = Y (Max (Bounds img)).
Proof.
  unfold render, plain_estimate. fold (configured fl g). cbv zeta.
  intros Hre [Hw Hh]. rewrite bounds_exact in * by assumption.
  match type of Hre with
  | context [NewRGBA ?r] => destruct (NewRGBA r) as [big|] eqn:Hn
  end; [|discriminate].
  apply NewRGBA_Some in Hn. destruct Hn as (Hbig & _ & _).
  match type of Hre with
  | context [draw_lines ?w ?c ?a ?l ?p ?b] =>
      destruct (draw_lines w c a l p b) as [[p' b']|e|]
  end; try discriminate.
  inversion Hre; subst img. clear Hre.
  rewrite SubImage_Intersect, Hbig. cbn [Bounds].
  match goal with
  | |- context [Intersect (Rect 0 0 ?cx ?cy) (mkRectangle _ (Pt ?dx ?dy))] =>
      destruct (Intersect_at_origin cx cy dx dy) as (Hmin & Hx & Hy);
      [lia|lia|];
      set (r := Intersect (Rect 0 0 cx cy) (mkRectangle (Pt 0 0) (Pt dx dy)))
        in *
  end.
  cbn [X Y Max] in *. unfold Dx, Dy, GoInt.sub. rewrite Hmin. cbn [X Y].
  rewrite !Z.sub_0_r, !int_small by lia. repeat split; try reflexivity; lia.
Qed.

(** X4. When the estimate is not negative and fits an [int], the image
    [render] returns starts at the origin: its bounds run from (0,0) to a
    corner that is not negative and within the estimate, so its width and
    height are the coordinates of that corner. *)
Theorem render_starts_at_origin (W : World) (fl : Flags) (g : Globals)
  (lines : list string) (img : Image) :
  render W fl g lines = Ok img ->
  plain_estimate W fl (configured fl g) lines ->
  Min (Bounds img) = Pt 0 0 /\
  0 <= X (Max (Bounds img)) <= X (Max (bounds W fl (configured fl g) lines)) /\
  0 <= Y (Max (Bounds img)) <= Y (Max (bounds W fl (configured fl g) lines)) /\
  Dx (Bounds img) = X (Max (Bounds img)) /\
  Dy (Bounds img) = Y (Max (Bounds img)).
Proof. exact (render_at_origin W fl g lines img). Qed.

Lemma render_starts_at_origin_witness :
  Min (mkRectangle (Pt 0 0) (Pt 68 50)) = Pt 0 0 /\
  0 <= 68 <= X (Max (bounds sample_world (default_flags "out.png")
                       (configured (default_flags "out.png")
                          (globals (default_flags "out.png") sample_font))
                       ["LGTM"])) /\
  0 <= 50 <= Y (Max (bounds sample_world (default_flags "out.png")
                       (configured (default_flags "out.png")
                          (globals (default_flags "out.png") sample_font))
                       ["LGTM"])) /\
  Dx (mkRectangle (Pt 0 0) (Pt 68 50)) = 68 /\
  Dy (mkRectangle (Pt 0 0) (Pt 68 50)) = 50.
Proof.
  apply (render_starts_at_origin sample_world (default_flags "out.png")
           (globals (default_flags "out.png") sample_font) ["LGTM"]
           (mkImage (mkRectangle (Pt 0 0) (Pt 68 50)))).
  - vm_compute. reflexivity.
  - unfold plain_estimate. vm_compute. intuition congruence.
Defined.

Lemma draw_lines_Err (W : World) (ctx : freetype.Context) (v : Z)
  (lines : list string) (e : error) :
  forall p b,
    draw_lines W ctx v lines p b = Err e ->
    exists line q,
      In line lines /\ fixed.X q = fixed.X p /\
      DrawString W ctx line q = Err e.
Proof.
  induction lines as [|line rest IH]; intros p b Hd; cbn [draw_lines] in Hd.
  - discriminate.
  - destruct (DrawString W ctx line
                (fixed.P26_6 (fixed.X p) (GoInt.int32 (fixed.Y p + v))))
      as [q1|e'|] eqn:Hq; try discriminate.
    + apply IH in Hd. destruct Hd as (l & q & Hin & Hx & Hd).
      exists l, q. split; [now right|]. split; assumption.
    + inversion Hd; subst e'. eexists line, _. split; [now left|].
      split; [|exact Hq]. reflexivity.
Qed.

Lemma draw_lines_Ok (W : World) (ctx : freetype.Context) (v : Z)
  (lines : list string) :
  (forall line p, In line lines -> exists p1, DrawString W ctx line p = Ok p1) ->
  forall p b, exists r, draw_lines W ctx v lines p b = Ok r.
Proof.
  induction lines as [|line rest IH]; intros Hok p b; cbn [draw_lines].
  - eexists. reflexivity.
  - destruct (Hok line
                (fixed.P26_6 (fixed.X p) (GoInt.int32 (fixed.Y p + v)))
                (or_introl eq_refl)) as [p1 ->].
    apply IH. intros l q Hin. apply Hok. now right.
Qed.

(** X5. An error of [render] is an error of the rasterizer: when [render]
    returns the error [e], drawing one of the lines, with the pen 16 pixels
    from the left, gave [e]. *)
Theorem render_error_is_rasterizer_error (W : World) (fl : Flags)
  (g : Globals) (lines : list string) (e : error) :
  render W fl g lines = Err e ->
  exists ctx line p,
    In line lines /\ fixed.X p = 1024 /\ DrawString W ctx line p = Err e.
Proof.
  unfold render. cbv zeta.
  match goal with
  | |- context [NewRGBA ?r] => destruct (NewRGBA r) as [big|]
  end; [|discriminate].
  match goal with
  | |- context [draw_lines ?w ?c ?a ?l ?p ?b] =>
      destruct (draw_lines w c a l p b) as [[p' b']|e'|] eqn:Hd
  end; try discriminate.
  intros H. inversion H; subst e'.
  apply draw_lines_Err in Hd. destruct Hd as (line & q & Hin & Hx & Hd).
  eexists _, line, q. split; [exact Hin|]. split; [|exact Hd].
  rewrite Hx. reflexivity.
Qed.

(** X6. [render] returns an image whenever the image of the estimated size
    can be allocated and the rasterizer draws every line. *)
Theorem render_returns_image (W : World) (fl : Flags) (g : Globals)
  (lines : list string) :
  NewRGBA (bounds W fl (configured fl g) lines) <> None ->
  (forall ctx line p,
      In line lines -> exists p1, DrawString W ctx line p = Ok p1) ->
  exists img, render W fl g lines = Ok img.
Proof.
  intros Hn Hok. unfold render. fold (configured fl g). cbv zeta.
  destruct (NewRGBA (bounds W fl (configured fl g) lines)) as [big|];
    [|congruence].
  match goal with
  | |- context [draw_lines ?w ?c ?a ?l ?p ?b] =>
      destruct (draw_lines_Ok w c a l (Hok c) p b) as [[p' b'] ->]
  end.
  eexists. reflexivity.
Qed.

Lemma render_error_is_rasterizer_error_witness :
  exists ctx line p,
    In line ["ok"; "bad"; "more"] /\ fixed.X p = 1024 /\
    DrawString glyphless_world ctx line p = Err "no glyph".
Proof.
  apply (render_error_is_rasterizer_error glyphless_world
           (default_flags "out.png")
           (globals (default_flags "out.png") sample_font)
           ["ok"; "bad"; "more"] "no glyph").
  vm_compute. reflexivity.
Defined.

Lemma render_returns_image_witness :
  exists img,
    render sample_world (default_flags "out.png")
      (globals (default_flags "out.png") sample_font) ["LGTM"] = Ok img.
Proof.
  apply (render_returns_image sample_world (default_flags "out.png")
           (globals (default_flags "out.png") sample_font) ["LGTM"]).
  - vm_compute. discriminate.
  - intros ctx line p _. eexists. reflexivity.
Defined.

(** X7. With moderate sizes and a font of at least 8 pixels, the height of
    the image [render] returns is fixed by the number of lines and the line
    spacing alone: 16 pixels when there is no line, and otherwise the two
    margins of 16 pixels and the lines, [n] times the spacing, rounded up.
    The width is at least the 16 pixels of the margin. *)
Theorem render_height (W : World) (fl : Flags) (g : Globals)
  (lines : list string) (img : Image) :
  render W fl g lines = Ok img ->
  moderate W fl g lines ->
  8 <= po W fl (configured fl g) ->
  Dy (Bounds img)
  = match lines with
    | [] => 16
    | _ => (Z.of_nat (List.length lines)
            * PointToFixed W (configured fl g) (fontSize fl + 2)%float
            + 2048 + 63) / 64
    end /\
  16 <= Dx (Bounds img).
Proof.
  unfold render, moderate. fold (configured fl g). cbv zeta.
  set (ctx := configured fl g).
  set (v := PointToFixed W _ (fontSize fl + 2)%float).
  intros Hre (Hpo & Hv & Hw & Hh & Hy & Hpen) Hpo8.
  pose proof (maxBytes_nonneg lines) as Hm.
  assert (Hnv : 0 <= Z.of_nat (List.length lines) * v)
    by (apply Z.mul_nonneg_nonneg; lia).
  assert (Hceil : lines <> [] ->
                  vs W fl ctx = (v + 63) / 64 /\ v <= 64 * vs W fl ctx).
  { intros Hne. unfold vs. fold v.
    assert (1 <= Z.of_nat (List.length lines))
      by (destruct lines; [congruence|cbn [List.length]; lia]).
    assert (v <= Z.of_nat (List.length lines) * v) by nia.
    rewrite Ceil_small by lia. split; [reflexivity|].
    pose proof (Z.div_mod (v + 63) 64 ltac:(lia)) as Hdm.
    pose proof (Z.mod_pos_bound (v + 63) 64 ltac:(lia)). lia. }
  assert (Hvs : 0 <= Z.of_nat (List.length lines) * vs W fl ctx).
  { destruct lines as [|l ls]; [simpl; lia|].
    apply Z.mul_nonneg_nonneg; [lia|].
    destruct (Hceil ltac:(discriminate)) as [-> _]. apply Z.div_pos; lia. }
  assert (Hmw : 0 <= maxBytes lines * po W fl ctx)
    by (apply Z.mul_nonneg_nonneg; lia).
  rewrite bounds_exact in Hre by lia.
  match type of Hre with
  | context [NewRGBA ?r] => destruct (NewRGBA r) as [big|] eqn:Hn
  end; [|discriminate].
  apply NewRGBA_Some in Hn. destruct Hn as (Hbig & _ & _).
  change (PointToFixed W
            (freetype.SetDst (freetype.SetClip ctx (Bounds big)) big)
            (fontSize fl + 2)%float) with v in Hre.
  match type of Hre with
  | context [draw_lines ?w ?c ?a ?l ?p ?b] =>
      destruct (draw_lines w c a l p b) as [[p' b']|e|] eqn:Hd
  end; try discriminate.
  apply draw_lines_pen in Hd; try assumption;
    try (change (fixed.X (freetype.Pt 16 16)) with 1024);
    try (change (fixed.Y (freetype.Pt 16 16)) with 1024);
    try (change (fixed.X (freetype.Pt 0 0)) with 0);
    try (change (fixed.Y (freetype.Pt 0 0)) with 0);
    try lia.
  destruct Hd as (Hb0 & Hb1 & Hby).
  change (fixed.X (freetype.Pt 16 16)) with 1024 in Hre.
  change (fixed.Y (freetype.Pt 16 16)) with 1024 in Hre.
  change (fixed.Y (freetype.Pt 0 0)) with 0 in Hby.
  change (fixed.Y (freetype.Pt 16 16)) with 1024 in Hby.
  assert (Hyb : 0 <= fixed.Y b' /\ fixed.Y b' + 1087 < 2 ^ 31)
    by (destruct Hby as [[_ Hby]|[_ Hby]]; lia).
  rewrite (int32_small (fixed.X b' + 1024)) in Hre by lia.
  rewrite (int32_small (fixed.Y b' + 1024)) in Hre by lia.
  rewrite !Ceil_small in Hre by lia.
  assert (Hcx : 16 <= (fixed.X b' + 1024 + 63) / 64 < 2 ^ 25).
  { split; [apply Z.div_le_lower_bound|apply Z.div_lt_upper_bound]; lia. }
  set (cx := (fixed.X b' + 1024 + 63) / 64) in *.
  set (dx := maxBytes lines * po W fl ctx + 4 * po W fl ctx) in *.
  set (dy := Z.of_nat (List.length lines) * vs W fl ctx + 4 * po W fl ctx) in *.
  set (cy := (fixed.Y b' + 1024 + 63) / 64) in *.
  assert (Hcy : cy = match lines with
                     | [] => 16
                     | _ => (Z.of_nat (List.length lines) * v + 2048 + 63) / 64
                     end /\ 16 <= cy <= dy).
  { unfold cy, dy. destruct Hby as [[Hnil Hby]|[Hne Hby]].
    - subst lines. rewrite Hby. cbn [List.length]. split; [reflexivity|].
      change ((0 + 1024 + 63) / 64) with 16. lia.
    - rewrite Hby. destruct lines as [|l ls]; [congruence|].
      destruct (Hceil ltac:(discriminate)) as [_ Hle].
      set (n := Z.of_nat (List.length (l :: ls))) in *.
      replace (1024 + n * v + 1024 + 63) with (n * v + 2048 + 63) by lia.
      split; [reflexivity|]. split.
      + apply Z.div_le_lower_bound; lia.
      + assert (n * v <= 64 * (n * vs W fl ctx)) by nia.
        assert ((n * v + 2048 + 63) / 64 < n * vs W fl ctx + 33)
          by (apply Z.div_lt_upper_bound; lia).
        lia. }
  destruct Hcy as [Hcy Hcyb].
  inversion Hre; subst img. clear Hre.
  rewrite SubImage_Intersect, Hbig. cbn [Bounds].
  rewrite Rect_ordered by lia. rewrite <- Hcy.
  unfold Intersect, Empty, Dx, Dy, GoInt.sub. cbn [X Y Min Max].
  rewrite Z.ltb_irrefl.
  destruct (Z.gtb_spec cx dx); destruct (Z.gtb_spec cy dy);
    cbn [X Y Min Max];
    repeat match goal with
      | |- context [Z.geb 0 ?a] =>
          let Hg := fresh in
          destruct (Z.geb 0 a) eqn:Hg;
          [rewrite Z.geb_leb in Hg; apply Z.leb_le in Hg; lia|]
      end;
    cbn [orb X Y Min Max]; rewrite !int_small by lia; lia.
Qed.

Lemma render_height_witness :
  Dy (mkRectangle (Pt 0 0) (Pt 77 84)) = (3 * 1109 + 2048 + 63) / 64 /\
  16 <= Dx (mkRectangle (Pt 0 0) (Pt 77 84)).
Proof.
  apply (render_height sample_world (with_report (default_flags ""))
           (globals (with_report (default_flags "")) sample_font)
           ["one"; "two"; "three"]
           (mkImage (mkRectangle (Pt 0 0) (Pt 77 84)))).
  - vm_compute. reflexivity.
  - unfold moderate. cbv zeta.
    do 5 (split; [vm_compute; congruence|]).
    intros c line p p1 Hin Hx Hd.
    cbn [sample_world DrawString] in Hd. inversion Hd; subst p1.
    cbn [fixed.X]. rewrite Hx.
    destruct Hin as [<-|[<-|[<-|[]]]]; vm_compute; reflexivity.
  - vm_compute. congruence.
Defined.

(** ** More on the Bounds Estimator *)

Lemma maxBytes_Permutation (l1 l2 : list string) :
  Permutation l1 l2 -> maxBytes l1 = maxBytes l2.
Proof.
  unfold maxBytes. induction 1 as [|x l l' _ IH|x y l|l l' l'' _ IH1 _ IH2];
    simpl; lia.
Qed.

(** X8. The estimate does not depend on the order of the lines. *)
Theorem bounds_Permutation (W : World) (fl : Flags) (ctx : freetype.Context)
  (l1 l2 : list string) :
  Permutation l1 l2 -> bounds W fl ctx l1 = bounds W fl ctx l2.
Proof.
  intros Hp. rewrite !bounds_wrapped.
  rewrite (maxBytes_Permutation l1 l2 Hp), (Permutation_length Hp).
  reflexivity.
Qed.

Lemma bounds_Permutation_witness :
  bounds sample_world (default_flags "out.png")
    (configured (default_flags "out.png")
       (globals (default_flags "out.png") sample_font)) ["LGTM"; "ok"]
  = bounds sample_world (default_flags "out.png")
      (configured (default_flags "out.png")
         (globals (default_flags "out.png") sample_font)) ["ok"; "LGTM"].
Proof.
  apply (bounds_Permutation sample_world (default_flags "out.png")
           (configured (default_flags "out.png")
              (globals (default_flags "out.png") sample_font))
           ["LGTM"; "ok"] ["ok"; "LGTM"]).
  apply perm_swap.
Defined.

(** ** The Text Source *)

Lemma ReplaceAll_tabs (s : string) :
  tabs (strings.ReplaceAll s "009"%char "    ") = 0%nat.
Proof.
  induction s as [|c r IH]; cbn [strings.ReplaceAll]; [reflexivity|].
  destruct (Ascii.eqb c "009"%char) eqn:Hc.
  - cbn [append tabs Ascii.eqb Bool.eqb]. exact IH.
  - cbn [tabs]. now rewrite Hc, IH.
Qed.

Lemma ReplaceAll_len (s : string) :
  len (strings.ReplaceAll s "009"%char "    ")
  = len s + 3 * Z.of_nat (tabs s).
Proof.
  unfold len. induction s as [|c r IH]; cbn [strings.ReplaceAll tabs];
    [reflexivity|].
  destruct (Ascii.eqb c "009"%char); cbn [append String.length]; lia.
Qed.

Lemma ReplaceAll_no_tab (s : string) :
  tabs s = 0%nat -> strings.ReplaceAll s "009"%char "    " = s.
Proof.
  induction s as [|c r IH]; cbn [strings.ReplaceAll tabs]; [reflexivity|].
  destruct (Ascii.eqb c "009"%char); [discriminate|].
  intros H. now rewrite IH.
Qed.

(** X9. [textToRender] returns one line for each token of the scanner, in
    the scanner's order, and passes the scanner's error on.  No line it
    returns holds a tab: each tab of a token has become four spaces, so the
    line is three bytes longer for each, and a token without tabs is
    returned as it is.  The tokens come from standard input exactly when
    the [-t] flag is empty. *)
Theorem textToRender_expands_tabs (W : World) (fl : Flags) :
  let scanned :=
    Scan W (if (text fl =? "")%string then Stdin else Buffer (text fl)) in
  snd (textToRender W fl) = snd scanned /\
  Forall2 (fun token line =>
             tabs line = 0%nat /\
             len line = len token + 3 * Z.of_nat (tabs token) /\
             (tabs token = 0%nat -> line = token))
          (fst scanned) (fst (textToRender W fl)).
Proof.
  cbv zeta. unfold textToRender.
  destruct (Scan W (if (text fl =? "")%string then Stdin else Buffer (text fl)))
    as [tokens err].
  cbn [fst snd]. split; [reflexivity|].
  induction tokens as [|t ts IH]; cbn [map]; constructor; [|exact IH].
  split; [apply ReplaceAll_tabs|]. split; [apply ReplaceAll_len|].
  apply ReplaceAll_no_tab.
Qed.

(** ** More on the Color Parser *)

Lemma allocColorImage_of_scan (s t : string) :
  fmt.Sscanf_x s 0 = fmt.Sscanf_x t 0 -> allocColorImage s = allocColorImage t.
Proof. unfold allocColorImage. now intros ->. Qed.

Lemma allocColorImage_black (s : string) :
  fmt.Sscanf_x s 0 = 0 -> allocColorImage s = transparent_black.
Proof. unfold allocColorImage. now intros ->. Qed.

Lemma is_hex_head (c : ascii) (r : string) :
  is_hex (String c r) = true -> exists d, fmt.hexval c = Some d /\ is_hex r = true.
Proof.
  cbn [is_hex]. destruct (fmt.hexval c) as [d|]; [|discriminate].
  intros H. now exists d.
Qed.

(** The scan of a string that starts with a digit and goes on with [t],
    where [t] does not start with a digit. *)
Lemma scanUint_token (s t : string) :
  is_hex s = true -> s <> "" ->
  fmt.scanNumber t = "" ->
  fmt.scanUint (s ++ t)
  = if hex_value s <? 2 ^ 32 then Some (hex_value s) else None.
Proof.
  intros Hh Hne Ht. unfold fmt.scanUint.
  destruct s as [|c r]; [congruence|].
  destruct (is_hex_head c r Hh) as (d & Hd & Hr).
  cbn [append]. rewrite (SkipSpace_digit c (r ++ t) d Hd).
  assert (Hsn : fmt.scanNumber (String c (r ++ t)) = String c r).
  { cbn [fmt.scanNumber]. unfold fmt.accept at 1. rewrite Hd. f_equal.
    clear Hh Hne Hd. induction r as [|c2 r2 IH]; cbn [append fmt.scanNumber].
    - exact Ht.
    - destruct (is_hex_head c2 r2 Hr) as (d2 & Hd2 & Hr2).
      unfold fmt.accept at 1. rewrite Hd2. f_equal. now apply IH. }
  rewrite Hsn, ParseUint_hex by assumption.
  rewrite Z.mul_0_l, Z.add_0_l. reflexivity.
Qed.

Lemma scanUint_hex (s : string) :
  is_hex s = true -> s <> "" ->
  fmt.scanUint s = if hex_value s <? 2 ^ 32 then Some (hex_value s) else None.
Proof.
  intros Hh Hne. rewrite <- (scanUint_token s "") by (assumption || reflexivity).
  f_equal. clear. induction s as [|c r IH]; cbn [append]; [reflexivity|].
  now rewrite <- IH.
Qed.

(** X10. Zeros in front of the digits do not change the colour. *)
Theorem allocColorImage_leading_zero (s : string) :
  is_hex s = true ->
  allocColorImage (String "0"%char s) = allocColorImage s.
Proof.
  intros Hh. apply allocColorImage_of_scan. unfold fmt.Sscanf_x.
  destruct s as [|c r]; [reflexivity|].
  rewrite (scanUint_hex (String "0"%char (String c r)))
    by (discriminate || (cbn [is_hex]; exact Hh)).
  rewrite (scanUint_hex (String c r)) by (discriminate || assumption).
  assert (Hv : hex_value (String "0"%char (String c r))
               = hex_value (String c r)) by reflexivity.
  rewrite Hv. reflexivity.
Qed.

Lemma allocColorImage_leading_zero_witness :
  allocColorImage (String "0"%char "a0b0cff") = allocColorImage "a0b0cff".
Proof. apply (allocColorImage_leading_zero "a0b0cff"). reflexivity. Defined.

(** X11. The digits fill the channels from the right: a string of one to
    six hexadecimal digits, such as RRGGBB without its alpha, gives a colour
    with no red, whose green, blue and alpha are the three bytes of the
    number the digits denote. *)
Theorem allocColorImage_short (s : string) :
  is_hex s = true -> (1 <= String.length s <= 6)%nat ->
  let k := C (allocColorImage s) in
  color.R k = 0 /\
  color.G k * 2 ^ 16 + color.B k * 2 ^ 8 + color.A k = hex_value s.
Proof.
  intros Hh Hl k.
  pose proof (hex_value_bound s) as Hb.
  assert (Hp : 16 ^ Z.of_nat (String.length s) <= 16 ^ 6)
    by (apply Z.pow_le_mono_r; lia).
  change (16 ^ 6) with (2 ^ 24) in Hp.
  assert (Hc : fmt.Sscanf_x s 0 = hex_value s)
    by (apply Sscanf_x_hex; [assumption|lia]).
  destruct (allocColorImage_parts s) as (HR & _).
  pose proof (allocColorImage_sum s) as Hsum. cbv zeta in Hsum.
  fold k in HR, Hsum. rewrite Hc in HR, Hsum.
  assert (H0 : color.R k = 0) by (rewrite HR; apply Z.div_small; lia).
  split; [exact H0|]. rewrite H0 in Hsum. lia.
Qed.

Lemma allocColorImage_short_witness :
  color.R (C (allocColorImage "ffffe0")) = 0 /\
  color.G (C (allocColorImage "ffffe0")) * 2 ^ 16
  + color.B (C (allocColorImage "ffffe0")) * 2 ^ 8
  + color.A (C (allocColorImage "ffffe0")) = hex_value "ffffe0".
Proof.
  apply (allocColorImage_short "ffffe0"); [reflexivity|simpl; lia].
Defined.

(** X12. Digits that denote a number of more than 32 bits are not cut
    down to 32 bits: the scan fails, the error is dropped and the colour
    is transparent black. *)
Theorem allocColorImage_too_long (s : string) :
  is_hex s = true -> 2 ^ 32 <= hex_value s ->
  allocColorImage s = transparent_black.
Proof.
  intros Hh Hv. apply allocColorImage_black. unfold fmt.Sscanf_x.
  destruct s as [|c r]; [simpl in Hv; lia|].
  rewrite scanUint_hex by (assumption || discriminate).
  destruct (Z.ltb_spec (hex_value (String c r)) (2 ^ 32)); [lia|reflexivity].
Qed.

Lemma allocColorImage_too_long_witness :
  allocColorImage "ffffe0ff0" = transparent_black.
Proof.
  apply (allocColorImage_too_long "ffffe0ff0"); [reflexivity|].
  vm_compute. congruence.
Defined.

(** X13. What follows the digits is not looked at: the colour of digits
    followed by a byte that is no hexadecimal digit, and anything after it,
    is the colour of the digits. *)
Theorem allocColorImage_trailing (s : string) (c : ascii) (r : string) :
  is_hex s = true -> s <> "" -> fmt.hexval c = None ->
  allocColorImage (s ++ String c r) = allocColorImage s.
Proof.
  intros Hh Hne Hc. apply allocColorImage_of_scan. unfold fmt.Sscanf_x.
  rewrite scanUint_token, scanUint_hex; try assumption; try reflexivity.
  cbn [fmt.scanNumber]. unfold fmt.accept. now rewrite Hc.
Qed.

Lemma allocColorImage_trailing_witness :
  allocColorImage ("00ff00ff" ++ String ";"%char " green")
  = allocColorImage "00ff00ff".
Proof.
  apply (allocColorImage_trailing "00ff00ff" ";"%char " green");
    [reflexivity|discriminate|reflexivity].
Defined.

(** X14. A string whose first byte is a printable ASCII character other
    than a hexadecimal digit, such as [#] or a sign, gives transparent
    black. *)
Theorem allocColorImage_no_digit (c : ascii) (r : string) :
  fmt.hexval c = None -> 32 < fmt.byte c < 128 ->
  allocColorImage (String c r) = transparent_black.
Proof.
  intros Hc Hb. apply allocColorImage_black.
  unfold fmt.Sscanf_x, fmt.scanUint.
  assert (Hs : fmt.SkipSpace (String c r) = Some (String c r)).
  { cbn [fmt.SkipSpace].
    destruct (Z.eqb_spec (fmt.byte c) 10); [lia|].
    assert (H1 : fmt.space1 c = false).
    { unfold fmt.space1. cbv zeta.
      repeat match goal with
             | |- context [Z.eqb ?a ?b] => destruct (Z.eqb_spec a b); [lia|]
             end. reflexivity. }
    rewrite H1. destruct r as [|c2 r2]; [reflexivity|].
    assert (H2 : fmt.space2 c c2 = false).
    { unfold fmt.space2. destruct (Z.eqb_spec (fmt.byte c) 194); [lia|].
      reflexivity. }
    rewrite H2. destruct r2 as [|c3 r3]; [reflexivity|].
    assert (H3 : fmt.space3 c c2 c3 = false).
    { unfold fmt.space3.
      destruct (Z.eqb_spec (fmt.byte c) 225); [lia|].
      destruct (Z.eqb_spec (fmt.byte c) 226); [lia|].
      destruct (Z.eqb_spec (fmt.byte c) 227); [lia|].
      reflexivity. }
    now rewrite H3. }
  rewrite Hs. cbn [fmt.scanNumber]. unfold fmt.accept. now rewrite Hc.
Qed.

Lemma allocColorImage_no_digit_witness :
  allocColorImage (String "#"%char "ff0000ff") = transparent_black.
Proof.
  apply (allocColorImage_no_digit "#"%char "ff0000ff");
    [reflexivity|vm_compute; split; congruence].
Defined.

(** ** More on the run of the program *)

(** One case split on the outcome that decides the next step of [main]:
    a flag, or what the world answers. *)
Ltac next_case :=
  match goal with
  | |- context [match ?x with _ => _ end] =>
      lazymatch x with
      | context [match _ with _ => _ end] => fail
      | _ => destruct x eqn:?
      end
  end; cbv beta iota.

Ltac open_main :=
  unfold main, exec, canvas, writeImage, usage, log_Fatal, bind, ret, emit,
    os_Exit, panic;
  cbv beta iota.

(** X15. Out of report mode, a run without an output file prints the usage
    and exits with status 2 before it reads a font or any text. *)
Theorem main_missing_output (W : World) (fl : Flags) :
  report fl = false -> outFile fl = "" ->
  main W fl = mkRun [PrintUsage] (Exit 2).
Proof.
  intros Hr Ho. open_main. rewrite Hr, Ho. reflexivity.
Qed.

Lemma main_missing_output_witness :
  main fontless_world (default_flags "") = mkRun [PrintUsage] (Exit 2).
Proof.
  apply (main_missing_output fontless_world (default_flags ""));
    reflexivity.
Defined.

(** With the flags parsed, [main] ends by the exit of [usage] only out of
    report mode, and only for a missing output file or an anchor that is
    none of the nine. *)
Lemma main_usage_exit (W : World) (fl : Flags) :
  exit (main W fl) = Exit 2 ->
  report fl = false /\
  (outFile fl = "" \/ valid_anchor (anchor fl) = false) /\
  exists tr, trace (main W fl) = (tr ++ [PrintUsage])%list.
Proof.
  open_main. repeat next_case; cbn [exit trace]; try discriminate; intros _.
  all: try match goal with
         | H : _ && negb _ = true |- _ =>
             apply andb_prop in H; destruct H as [Ho Hr];
             apply String.eqb_eq in Ho; apply negb_true_iff in Hr
         end.
  all: try match goal with
         | H : textRect _ _ _ = None |- _ =>
             apply textRect_None_invalid in H
         end.
  all: (split; [assumption || reflexivity|]); (split; [tauto|]).
  all: eexists; reflexivity.
Qed.

(** X16. The process ends by the exit of [usage], [os.Exit(2)], in these
    cases only: [flag.Parse] does not accept the command line, and the run
    is its message and the usage text, whatever the flags given; help is
    asked for, and the run is the usage text; or the flags parse, and then
    only out of report mode, for a missing output file or an anchor that is
    none of the nine.  The usage text is then the last thing the run
    prints.  (A panic is another ending, [Crash].) *)
Theorem carver_usage_reasons (W : World) :
  (forall msg,
      carver W (BadFlag msg) = mkRun [Stderr msg; PrintUsage] (Exit 2)) /\
  carver W Help = mkRun [PrintUsage] (Exit 2) /\
  (forall fl,
      exit (carver W (Parsed fl)) = Exit 2 ->
      report fl = false /\
      (outFile fl = "" \/ valid_anchor (anchor fl) = false) /\
      exists tr, trace (carver W (Parsed fl)) = (tr ++ [PrintUsage])%list).
Proof.
  split; [|split].
  - intros msg. reflexivity.
  - reflexivity.
  - intros fl. cbn [carver]. apply main_usage_exit.
Qed.

Lemma carver_usage_reasons_witness :
  report (with_anchor (default_flags "out.png") "zz") = false /\
  (outFile (with_anchor (default_flags "out.png") "zz") = "" \/
   valid_anchor (anchor (with_anchor (default_flags "out.png") "zz")) = false)
  /\
  exists tr,
    trace (carver sample_world
             (Parsed (with_anchor (default_flags "out.png") "zz")))
    = (tr ++ [PrintUsage])%list.
Proof.
  destruct (carver_usage_reasons sample_world) as (_ & _ & H).
  apply (H (with_anchor (default_flags "out.png") "zz")).
  vm_compute. reflexivity.
Defined.

(** X17. When the font cannot be read or parsed, the text cannot be read,
    or a line cannot be drawn, the run prints that error, does nothing
    else, and exits with status 1. *)
Theorem main_fatal_errors (W : World) (fl : Flags) (e : error) :
  (outFile fl =? "")%string && negb (report fl) = false ->
  loaded_font W fl = Err e \/
  (exists f lines,
      loaded_font W fl = Ok f /\
      (textToRender W fl = (lines, Some e) \/
       (textToRender W fl = (lines, None) /\
        render W fl (globals fl f) lines = Err e))) ->
  main W fl = mkRun [Stderr e] (Exit 1).
Proof.
  intros Hu H. unfold loaded_font, globals in H. open_main. rewrite Hu.
  cbv beta iota.
  destruct H as [Hf|(f & lines & Hf & [Ht|[Ht Hre]])].
  - destruct (fontFile fl =? "")%string.
    + rewrite Hf. reflexivity.
    + destruct (os_ReadFile W (fontFile fl)); try discriminate.
      * rewrite Hf. reflexivity.
      * inversion Hf; subst. reflexivity.
  - destruct (fontFile fl =? "")%string.
    + rewrite Hf, Ht. reflexivity.
    + destruct (os_ReadFile W (fontFile fl)); try discriminate.
      rewrite Hf, Ht. reflexivity.
  - destruct (fontFile fl =? "")%string.
    + rewrite Hf, Ht, Hre. reflexivity.
    + destruct (os_ReadFile W (fontFile fl)); try discriminate.
      rewrite Hf, Ht, Hre. reflexivity.
Qed.

Lemma main_fatal_errors_witness :
  main fontless_world (default_flags "out.png")
  = mkRun [Stderr "bad font"] (Exit 1).
Proof.
  apply (main_fatal_errors fontless_world (default_flags "out.png")
           "bad font").
  - reflexivity.
  - left. reflexivity.
Defined.

(** [render] returns only after it has allocated the estimate. *)
Lemma render_allocates_estimate (W : World) (fl : Flags) (g : Globals)
  (lines : list string) (img : Image) :
  render W fl g lines = Ok img ->
  exists big, NewRGBA (bounds W fl (configured fl g) lines) = Some big.
Proof.
  unfold render. fold (configured fl g). cbv zeta.
  destruct (NewRGBA (bounds W fl (configured fl g) lines)) as [big|];
    [|discriminate].
  intros _. now exists big.
Qed.

Lemma NewRGBA_fits (r : Rectangle) (big : Image) :
  NewRGBA r = Some big -> 4 * Dx r < 2 ^ 64 /\ 4 * Dx r * Dy r <= 2 ^ 48.
Proof. intros H. apply NewRGBA_spec in H. tauto. Qed.

(** The canvas for the image [render] returns can always be allocated. *)
Lemma render_canvas_allocates (W : World) (fl : Flags) (g : Globals)
  (lines : list string) (img : Image) :
  render W fl g lines = Ok img ->
  plain_estimate W fl (configured fl g) lines ->
  NewRGBA (Bounds img) = Some img.
Proof.
  intros Hre Hpl.
  destruct (render_at_origin W fl g lines img Hre Hpl)
    as (Hmin & Hx & Hy & Hdx & Hdy).
  destruct (render_allocates_estimate W fl g lines img Hre) as [big Hn].
  apply NewRGBA_fits in Hn.
  set (est := bounds W fl (configured fl g) lines) in *.
  assert (Hex : Dx est = X (Max est) /\ Dy est = Y (Max est)).
  { unfold est. destruct Hpl as [Hw Hh]. rewrite bounds_exact by assumption.
    unfold Dx, Dy, GoInt.sub. cbn [X Y Min Max].
    rewrite !Z.sub_0_r, !int_small by lia. split; reflexivity. }
  destruct Hex as [Hex Hey]. rewrite Hex, Hey in Hn.
  apply NewRGBA_spec. rewrite Hdx, Hdy.
  split; [destruct img; reflexivity|]. repeat split; try lia; nia.
Qed.

(** On a canvas of the size of the text, every anchor puts the text on the
    whole canvas. *)
Lemma textRect_same_size (img : Image) (pos : string) :
  Min (Bounds img) = Pt 0 0 ->
  0 <= X (Max (Bounds img)) < 2 ^ 63 ->
  0 <= Y (Max (Bounds img)) < 2 ^ 63 ->
  valid_anchor pos = true ->
  textRect img img pos = Some (Bounds img).
Proof.
  intros Hmin Hx Hy Hv. unfold textRect, Dx, Dy, GoInt.sub.
  rewrite Hmin. cbn [X Y].
  rewrite !Z.sub_0_r. rewrite (int_small (X (Max (Bounds img)))) by lia.
  rewrite (int_small (Y (Max (Bounds img)))) by lia.
  rewrite !Z.sub_diag. change (GoInt.int 0) with 0.
  change (GoInt.div 0 2) with 0.
  unfold Add, GoInt.add. cbn [X Y]. change (GoInt.int (0 + 0)) with 0.
  rewrite !Z.add_0_l.
  rewrite (int_small (X (Max (Bounds img)))) by lia.
  rewrite (int_small (Y (Max (Bounds img)))) by lia.
  rewrite Rect_ordered by lia.
  assert (Hb : mkRectangle (Pt 0 0)
                 (Pt (X (Max (Bounds img))) (Y (Max (Bounds img))))
               = Bounds img).
  { destruct (Bounds img) as [mn [mx my]]. cbn [X Y Min Max] in *.
    now rewrite Hmin. }
  rewrite Hb. revert Hv. unfold valid_anchor. cbn [existsb].
  repeat match goal with
         | |- context [String.eqb pos ?s] => destruct (String.eqb pos s)
         end; simpl; congruence.
Qed.

(** X18. Without an input image the anchor has no effect: when the
    estimate is not negative and fits an [int], and nothing fails, the run
    fills a canvas of exactly the size of the rendered text with the
    background colour, draws the text over the whole of it, writes it to
    the output file and exits with status 0, whichever of the nine anchors
    is given. *)
Theorem main_plain_background (W : World) (fl : Flags) (f : freetype.Font)
  (lines : list string) (img : Image) :
  report fl = false -> outFile fl <> "" -> inFile fl = "" ->
  valid_anchor (anchor fl) = true ->
  loaded_font W fl = Ok f ->
  textToRender W fl = (lines, None) ->
  render W fl (globals fl f) lines = Ok img ->
  plain_estimate W fl (configured fl (globals fl f)) lines ->
  png_Encode W img = None -> ioutil_WriteFile W (outFile fl) = None ->
  main W fl
  = mkRun [Fill (Bounds img) (allocColorImage (bgColor fl));
           DrawOver (Bounds img) (Bounds img) (Bounds img);
           WriteFile (outFile fl) (Bounds img)] (Exit 0).
Proof.
  intros Hr Ho Hi Hv Hf Ht Hre Hpl He Hw.
  pose proof (render_canvas_allocates W fl _ lines img Hre Hpl) as Hn.
  destruct (render_at_origin W fl _ lines img Hre Hpl)
    as (Hmin & Hx & Hy & _ & _).
  pose proof (bounds_int_rect W fl (configured fl (globals fl f)) lines) as Hir.
  unfold int_rect, GoInt.in_int in Hir.
  assert (Htr : textRect img img (anchor fl) = Some (Bounds img))
    by (apply textRect_same_size; try assumption; lia).
  apply String.eqb_neq in Ho.
  unfold loaded_font in Hf. unfold globals in *. open_main.
  rewrite Hr, Ho, Ht, Hi. cbn [andb String.eqb]. cbv beta iota.
  destruct (fontFile fl =? "")%string.
  - rewrite Hf, Hre, Hn. cbv beta iota. rewrite Htr, He, Hw. reflexivity.
  - destruct (os_ReadFile W (fontFile fl)); try discriminate.
    rewrite Hf, Hre, Hn. cbv beta iota. rewrite Htr, He, Hw. reflexivity.
Qed.

Lemma main_plain_background_witness :
  main sample_world (with_anchor (default_flags "out.png") "br")
  = mkRun [Fill (mkRectangle (Pt 0 0) (Pt 77 84)) (allocColorImage "ffffe0ff");
           DrawOver (mkRectangle (Pt 0 0) (Pt 77 84))
             (mkRectangle (Pt 0 0) (Pt 77 84))
             (mkRectangle (Pt 0 0) (Pt 77 84));
           WriteFile "out.png" (mkRectangle (Pt 0 0) (Pt 77 84))] (Exit 0).
Proof.
  apply (main_plain_background sample_world
           (with_anchor (default_flags "out.png") "br") sample_font
           ["one"; "two"; "three"]
           (mkImage (mkRectangle (Pt 0 0) (Pt 77 84))));
    try reflexivity.
  - discriminate.
  - unfold plain_estimate. vm_compute. intuition congruence.
Defined.

(** X19. Out of report mode, a run that ends with status 0 has drawn the
    text on the canvas, at the rectangle [textRect] gives for the anchor,
    and then written that canvas to the output file; that write is its
    last event and its only write. *)
Theorem main_success_writes_canvas (W : World) (fl : Flags) :
  report fl = false -> exit (main W fl) = Exit 0 ->
  exists tr cimg img r,
    trace (main W fl)
    = (tr ++ [DrawOver (Bounds cimg) r (Bounds img);
              WriteFile (outFile fl) (Bounds cimg)])%list /\
    textRect cimg img (anchor fl) = Some r /\
    forallb no_write tr = true /\
    ioutil_WriteFile W (outFile fl) = None.
Proof.
  intros Hr. open_main. rewrite Hr.
  repeat next_case; cbn [exit trace app]; try discriminate; intros _.
  all: match goal with
       | |- exists tr cimg img r,
           ?e1 :: DrawOver (Bounds ?c) ?x (Bounds ?i) :: _ = _ /\ _ =>
           exists [e1], c, i, x
       end.
  all: (split; [reflexivity|]); (split; [assumption|]); split; reflexivity.
Qed.

Lemma main_success_writes_canvas_witness :
  exists tr cimg img r,
    trace (main sample_world (default_flags "out.png"))
    = (tr ++ [DrawOver (Bounds cimg) r (Bounds img);
              WriteFile (outFile (default_flags "out.png")) (Bounds cimg)])%list
    /\
    textRect cimg img (anchor (default_flags "out.png")) = Some r /\
    forallb no_write tr = true /\
    ioutil_WriteFile sample_world (outFile (default_flags "out.png")) = None.
Proof.
  apply (main_success_writes_canvas sample_world (default_flags "out.png"));
    vm_compute; reflexivity.
Defined.

(** X20. No run writes more than one file, no run writes a file other
    than the output file, no run in report mode writes a file, and no run
    out of report mode prints on standard output. *)
Theorem main_writes_at_most_once (W : World) (fl : Flags) :
  (List.length (filter writes_file (trace (main W fl))) <= 1)%nat /\
  forallb (writes_only_to (outFile fl)) (trace (main W fl)) = true /\
  (if report fl
   then forallb no_write (trace (main W fl)) = true
   else forallb (fun e => negb (prints e)) (trace (main W fl)) = true).
Proof.
  open_main.
  repeat next_case; cbn [exit trace app filter writes_file List.length forallb
    writes_only_to no_write writes_to prints negb orb andb];
    rewrite ?String.eqb_refl; repeat split; try reflexivity; try lia.
Qed.

(** X21. With an input image that starts at the origin and that the text
    fits, a run where nothing fails decodes the image, draws the text over
    it within its bounds and at its own size, writes the image to the
    output file and exits with status 0: the output has the bounds of the
    input image. *)
Theorem main_over_image (W : World) (fl : Flags) (f : freetype.Font)
  (lines : list string) (img cimg : Image) :
  report fl = false -> outFile fl <> "" -> inFile fl <> "" ->
  valid_anchor (anchor fl) = true ->
  loaded_font W fl = Ok f ->
  textToRender W fl = (lines, None) ->
  render W fl (globals fl f) lines = Ok img ->
  os_Open W (inFile fl) = None ->
  image_Decode W (inFile fl) = Mutable cimg ->
  rect_ok (Bounds cimg) -> rect_ok (Bounds img) ->
  Min (Bounds cimg) = Pt 0 0 ->
  width (Bounds img) <= width (Bounds cimg) ->
  height (Bounds img) <= height (Bounds cimg) ->
  png_Encode W cimg = None -> ioutil_WriteFile W (outFile fl) = None ->
  exists r,
    main W fl
    = mkRun [Decode (inFile fl);
             DrawOver (Bounds cimg) r (Bounds img);
             WriteFile (outFile fl) (Bounds cimg)] (Exit 0) /\
    inside r (Bounds cimg) /\
    width r = width (Bounds img) /\ height r = height (Bounds img).
Proof.
  intros Hr Ho Hi Hv Hf Ht Hre Hop Hdec Hc Hs H0 Hfw Hfh He Hw.
  destruct (textRect_fits_inside cimg img (anchor fl) Hc Hs H0 Hfw Hfh Hv)
    as (r & Htr & Hin).
  exists r. split; [|split; [exact Hin|]].
  - apply String.eqb_neq in Ho, Hi.
    unfold loaded_font in Hf. unfold globals in *. open_main.
    rewrite Hr, Ho, Ht, Hi. cbn [andb]. cbv beta iota.
    destruct (fontFile fl =? "")%string.
    + rewrite Hf, Hre, Hop. cbv beta iota. rewrite Hdec. cbv beta iota.
      rewrite Htr, He, Hw. reflexivity.
    + destruct (os_ReadFile W (fontFile fl)); try discriminate.
      rewrite Hf, Hre, Hop. cbv beta iota. rewrite Hdec. cbv beta iota.
      rewrite Htr, He, Hw. reflexivity.
  - rewrite textRect_far_corner in Htr by assumption.
    destruct (anchor_offset_valid
                (X (Max (Bounds cimg)) - width (Bounds img))
                (Y (Max (Bounds cimg)) - height (Bounds img))
                (anchor fl) Hv) as (px & py & Hao & _ & _).
    rewrite Hao in Htr. inversion Htr; subst r.
    unfold width, height. cbn [X Y Min Max]. lia.
Qed.

Lemma main_over_image_witness :
  exists r,
    main sample_world
      (mkFlags "000000ff" "ffffe0ff" "out.png" "in.png" "LGTM" 96 11 "" false
         "tr")
    = mkRun [Decode "in.png";
             DrawOver (mkRectangle (Pt 0 0) (Pt 200 100)) r
               (mkRectangle (Pt 0 0) (Pt 68 50));
             WriteFile "out.png" (mkRectangle (Pt 0 0) (Pt 200 100))]
        (Exit 0) /\
    inside r (mkRectangle (Pt 0 0) (Pt 200 100)) /\
    width r = width (mkRectangle (Pt 0 0) (Pt 68 50)) /\
    height r = height (mkRectangle (Pt 0 0) (Pt 68 50)).
Proof.
  apply (main_over_image sample_world
           (mkFlags "000000ff" "ffffe0ff" "out.png" "in.png" "LGTM" 96 11 ""
              false "tr")
           sample_font ["LGTM"]
           (mkImage (mkRectangle (Pt 0 0) (Pt 68 50)))
           (mkImage (mkRectangle (Pt 0 0) (Pt 200 100))));
    try reflexivity; try discriminate;
    vm_compute; intuition congruence.
Defined.
